(** * Session client of the study-assistant front-end ([src/api.js])

    A shallow embedding of the networking layer: the browser's
    [localStorage] is a finite map from strings to strings, every
    asynchronous function is a computation over a world made of that map
    and a chronological log of the effects performed, and the backend is a
    function from the requests received so far and the incoming request to
    the outcome of [fetch].  The protected operations call themselves again
    after a successful token refresh; they are defined by recursion on a
    fuel argument, and a run that exhausts it is [Unfinished]. *)

From Stdlib Require Import ZArith.
From stdpp Require Import base strings gmap list pretty.

Local Open Scope string_scope.
Local Open Scope Z_scope.
Set Warnings "-register-all".

(** ** JavaScript values that cross the API boundary *)

Module JS.

(** The result of [JSON.parse].  A number is carried by the text that
    [Number.prototype.toString] prints for it, so the only falsy number a
    JSON body can yield ([0], also printed for [-0]) is [JNum "0"].  The
    fields of an object are listed with each key once, as they are after
    parsing. *)
Inductive json : Type :=
  | JNull
  | JBool (b : bool)
  | JNum (repr : string)
  | JStr (s : string)
  | JArr (items : list json)
  | JObj (fields : list (string * json)).

(** A JavaScript value as the code sees it: [None] is [undefined]. *)
Definition value : Type := option json.

Definition undefined : value := None.

(** The errors the module can raise or let through. *)
Inductive exn : Type :=
  | Error (message : string)   (* [new Error(message)] *)
  | TypeError                  (* reading a property of [null] *)
  | SyntaxError                (* [res.json()] on a body that is not JSON *)
  | NetworkError.              (* [fetch] rejected: transport failure *)

Fixpoint assoc (k : string) (fields : list (string * json)) : value :=
  match fields with
  | [] => None
  | (k', v) :: rest => if decide (k = k') then Some v else assoc k rest
  end.

(** [j.k] for a key that no prototype defines: [null.k] throws, an object
    gives its field or [undefined], everything else gives [undefined]. *)
Definition get_prop (j : json) (k : string) : exn + value :=
  match j with
  | JNull => inl TypeError
  | JObj fields => inr (assoc k fields)
  | _ => inr undefined
  end.

(** ToBoolean. *)
Definition truthy (v : value) : bool :=
  match v with
  | None => false
  | Some JNull => false
  | Some (JBool b) => b
  | Some (JNum repr) => negb (bool_decide (repr = "0"))
  | Some (JStr s) => negb (bool_decide (s = ""))
  | Some (JArr _) => true
  | Some (JObj _) => true
  end.

(** ToString on parsed JSON; an array joins its elements with commas,
    printing [null] as the empty string. *)
Fixpoint to_string (j : json) : string :=
  match j with
  | JNull => "null"
  | JBool true => "true"
  | JBool false => "false"
  | JNum repr => repr
  | JStr s => s
  | JArr items =>
      (fix join (l : list json) : string :=
         match l with
         | [] => ""
         | x :: rest =>
             let here := match x with JNull => "" | _ => to_string x end in
             match rest with
             | [] => here
             | _ => here +:+ "," +:+ join rest
             end
         end) items
  | JObj _ => "[object Object]"
  end.

Definition ToString (v : value) : string :=
  match v with
  | None => "undefined"
  | Some j => to_string j
  end.

(** [a || b] where [b] is not [undefined]. *)
Definition or_else (a : value) (b : json) : json :=
  if truthy a then default b a else b.

End JS.
Export JS.

(** ** HTTP *)

Inductive reqbody : Type :=
  | NoBody
  | JsonBody (j : json)        (* [JSON.stringify(j)] *)
  | FormBody (file : string).  (* a [FormData] with the one field "file" *)

Record request : Type := Request {
  url : string;
  method : string;
  headers : list (string * string);
  body : reqbody
}.

(** A response: its status and what [res.json()] yields, [None] when the
    body is not JSON. *)
Record response : Type := Response {
  status : Z;
  json_body : option json
}.

(** [res.ok] *)
Definition ok (res : response) : bool :=
  (200 <=? status res) && (status res <=? 299).

Inductive fetch_result : Type :=
  | FetchRejected
  | FetchResponse (res : response).

(** ** The world: storage and the log of effects *)

Inductive event : Type :=
  | EvFetch (req : request) (res : fetch_result)
  | EvSetItem (k v : string)
  | EvRemoveItem (k : string)
  | EvNavigate (href : string)
  | EvConsoleError (label : string) (e : exn)
  | EvSaveFile (filename : string) (res : response).

Record world : Type := World {
  localStorage : gmap string string;
  log : list event
}.

Definition requests (l : list event) : list request :=
  omap (fun ev => match ev with EvFetch req _ => Some req | _ => None end) l.

(** ** Computations *)

Inductive completion (A : Type) : Type :=
  | Normal (a : A)
  | Abrupt (e : exn)
  | Unfinished.
Arguments Normal {A} a.
Arguments Abrupt {A} e.
Arguments Unfinished {A}.

Definition M (A : Type) : Type := world -> completion A * world.

Definition ret {A} (a : A) : M A := fun w => (Normal a, w).
Definition throw {A} (e : exn) : M A := fun w => (Abrupt e, w).
Definition unfinished {A} : M A := fun w => (Unfinished, w).

Definition bind {A B} (m : M A) (k : A -> M B) : M B :=
  fun w =>
    match m w with
    | (Normal a, w') => k a w'
    | (Abrupt e, w') => (Abrupt e, w')
    | (Unfinished, w') => (Unfinished, w')
    end.

(** [try { m } catch (error) { h error }] and [p.catch(h)]. *)
Definition try_catch {A} (m : M A) (h : exn -> M A) : M A :=
  fun w =>
    match m w with
    | (Abrupt e, w') => h e w'
    | other => other
    end.

Notation "'let*' x ':=' m 'in' k" := (bind m (fun x => k))
  (at level 10, x name, m at level 100, k at level 200).
Notation "m ';;' k" := (bind m (fun _ => k))
  (at level 100, k at level 200, right associativity).

Definition lift {A} (r : exn + A) : M A :=
  match r with
  | inl e => throw e
  | inr a => ret a
  end.

Definition emit (ev : event) : M unit :=
  fun w => (Normal tt, World (localStorage w) (log w ++ [ev])).

(** [localStorage.getItem], [setItem] and [removeItem]. *)
Definition getItem (k : string) : M (option string) :=
  fun w => (Normal (localStorage w !! k), w).

Definition setItem (k : string) (v : value) : M unit :=
  fun w => (Normal tt,
            World (<[k := ToString v]> (localStorage w))
                  (log w ++ [EvSetItem k (ToString v)])).

Definition removeItem (k : string) : M unit :=
  fun w => (Normal tt,
            World (delete k (localStorage w)) (log w ++ [EvRemoveItem k])).

(** [res.json()] *)
Definition res_json (res : response) : M json :=
  match json_body res with
  | Some j => ret j
  | None => throw SyntaxError
  end.

(** What [getItem] returns is a string or [null]. *)
Definition item (t : option string) : json :=
  match t with
  | Some s => JStr s
  | None => JNull
  end.

Definition truthy_item (t : option string) : bool := truthy (Some (item t)).

(** ** The module [api.js] *)

(** The environment variable [REACT_APP_API_BASE], if set, and the
    backend: given the requests it has received so far and the next one,
    it answers or the transport fails. *)
Class Env : Type := {
  REACT_APP_API_BASE : option string;
  server : list request -> request -> fetch_result
}.

Section Api.

Context {env : Env}.

Definition API_BASE : string :=
  match REACT_APP_API_BASE with
  | Some s => if bool_decide (s = "") then "http://localhost:8000" else s
  | None => "http://localhost:8000"
  end.

(** [await fetch(url, init)] *)
Definition fetch (req : request) : M response :=
  fun w =>
    let res := server (requests (log w)) req in
    let w' := World (localStorage w) (log w ++ [EvFetch req res]) in
    match res with
    | FetchRejected => (Abrupt NetworkError, w')
    | FetchResponse r => (Normal r, w')
    end.

Definition json_headers : list (string * string) :=
  [("Content-Type", "application/json")].

(** [...(token && { 'Authorization': `Bearer ${token}` })] *)
Definition bearer (token : option string) : list (string * string) :=
  if truthy_item token
  then [("Authorization", "Bearer " +:+ to_string (item token))]
  else [].

Definition getAuthHeaders : M (list (string * string)) :=
  let* token := getItem "access_token" in
  ret (("Content-Type", "application/json") :: bearer token).

Definition refreshAccessToken : M bool :=
  let* refreshToken := getItem "refresh_token" in
  if negb (truthy_item refreshToken) then ret false
  else
    try_catch
      (let* res := fetch (Request (API_BASE +:+ "/api/auth/refresh") "POST"
                            json_headers
                            (JsonBody (JObj [("refresh_token", item refreshToken)]))) in
       if negb (ok res) then ret false
       else
         let* data := res_json res in
         let* token := lift (get_prop data "access_token") in
         setItem "access_token" token;;
         ret true)
      (fun _ => ret false).

Definition handleAuthError (res : response) : M bool :=
  if status res =? 401 then
    let* refreshed := refreshAccessToken in
    if negb refreshed then
      removeItem "access_token";;
      removeItem "refresh_token";;
      emit (EvNavigate "/login");;
      throw (Error "Session expired. Please login again.")
    else ret true
  else ret false.

(** [throw new Error(error.detail || fallback)] *)
Definition throw_detail {A} (error : json) (fallback : string) : M A :=
  let* detail := lift (get_prop error "detail") in
  throw (Error (to_string (or_else detail (JStr fallback)))).

(** [await res.json().catch(() => ({}))] *)
Definition json_or_empty (res : response) : M json :=
  try_catch (res_json res) (fun _ => ret (JObj [])).

Definition registerUser (email : string) (phone : json) (fullName : string)
  : M json :=
  let* res := fetch (Request (API_BASE +:+ "/api/auth/register") "POST"
                       json_headers
                       (JsonBody (JObj [("email", JStr email);
                                        ("phone", or_else (Some phone) (JStr ""));
                                        ("full_name", JStr fullName)]))) in
  if negb (ok res) then
    let* error := res_json res in
    throw_detail error "Registration failed"
  else res_json res.

Definition sendOTP (phone : json) (email : string) : M json :=
  let* res := fetch (Request (API_BASE +:+ "/api/auth/send-otp") "POST"
                       json_headers
                       (JsonBody (JObj [("email", JStr email);
                                        ("phone", phone)]))) in
  if negb (ok res) then
    let* error := res_json res in
    throw_detail error "Failed to send OTP"
  else res_json res.

Definition verifyOTP (email otp : string) : M json :=
  let* res := fetch (Request (API_BASE +:+ "/api/auth/verify-otp") "POST"
                       json_headers
                       (JsonBody (JObj [("email", JStr email);
                                        ("otp", JStr otp)]))) in
  if negb (ok res) then
    let* error := res_json res in
    throw_detail error "Invalid OTP"
  else
    let* data := res_json res in
    let* access := lift (get_prop data "access_token") in
    setItem "access_token" access;;
    let* refresh := lift (get_prop data "refresh_token") in
    setItem "refresh_token" refresh;;
    ret data.

Definition logout : M unit :=
  removeItem "access_token";;
  removeItem "refresh_token".

Fixpoint getUserProfile (fuel : nat) : M json :=
  match fuel with
  | O => unfinished
  | S fuel =>
      let* hs := getAuthHeaders in
      let* res := fetch (Request (API_BASE +:+ "/api/user/profile") "GET" hs NoBody) in
      let* again := handleAuthError res in
      if again then getUserProfile fuel
      else if negb (ok res) then
        let* error := json_or_empty res in
        throw_detail error "Failed to fetch profile"
      else res_json res
  end.

Fixpoint summarizeText (text : string) (fuel : nat) : M json :=
  match fuel with
  | O => unfinished
  | S fuel =>
      let* hs := getAuthHeaders in
      let* res := fetch (Request (API_BASE +:+ "/api/summarize") "POST" hs
                           (JsonBody (JObj [("text", JStr text)]))) in
      let* again := handleAuthError res in
      if again then summarizeText text fuel
      else if negb (ok res) then
        let* error := json_or_empty res in
        throw_detail error "Failed to summarize text"
      else res_json res
  end.

Fixpoint summarizeYouTube (url : string) (fuel : nat) : M json :=
  match fuel with
  | O => unfinished
  | S fuel =>
      let* hs := getAuthHeaders in
      let* res := fetch (Request (API_BASE +:+ "/api/summarize") "POST" hs
                           (JsonBody (JObj [("youtube_url", JStr url)]))) in
      let* again := handleAuthError res in
      if again then summarizeYouTube url fuel
      else if negb (ok res) then
        let* errorData := json_or_empty res in
        throw_detail errorData
          ("HTTP " +:+ pretty (status res) +:+ ": Failed to summarize YouTube")
      else res_json res
  end.

Fixpoint summarizePDF (file : string) (fuel : nat) : M json :=
  match fuel with
  | O => unfinished
  | S fuel =>
      let* token := getItem "access_token" in
      let* res := fetch (Request (API_BASE +:+ "/api/summarize-pdf") "POST"
                           (bearer token) (FormBody file)) in
      let* again := handleAuthError res in
      if again then summarizePDF file fuel
      else if negb (ok res) then
        let* error := json_or_empty res in
        throw_detail error "Failed to summarize PDF"
      else res_json res
  end.

Fixpoint generateQuiz (summary : string) (fuel : nat) : M json :=
  match fuel with
  | O => unfinished
  | S fuel =>
      let* hs := getAuthHeaders in
      let* res := fetch (Request (API_BASE +:+ "/api/quiz") "POST" hs
                           (JsonBody (JObj [("text", JStr summary)]))) in
      let* again := handleAuthError res in
      if again then generateQuiz summary fuel
      else if negb (ok res) then
        let* error := json_or_empty res in
        throw_detail error "Failed to generate quiz"
      else res_json res
  end.

Definition downloadQuizPdf (title : string) (quizData : json) : M unit :=
  try_catch
    (let* res := fetch (Request (API_BASE +:+ "/api/download-quiz") "POST"
                          json_headers
                          (JsonBody (JObj [("title", JStr title);
                                           ("quiz_data", quizData)]))) in
     if negb (ok res) then
       let* error := json_or_empty res in
       throw_detail error "Failed to download PDF"
     else emit (EvSaveFile (title +:+ ".pdf") res))
    (fun error =>
       emit (EvConsoleError "Download failed:" error);;
       throw error).

Fixpoint getUserSummaries (fuel : nat) : M json :=
  match fuel with
  | O => unfinished
  | S fuel =>
      let* hs := getAuthHeaders in
      let* res := fetch (Request (API_BASE +:+ "/api/user/summaries") "GET" hs NoBody) in
      let* again := handleAuthError res in
      if again then getUserSummaries fuel
      else if negb (ok res) then
        let* error := json_or_empty res in
        throw_detail error "Failed to fetch summaries"
      else res_json res
  end.

Fixpoint getUserQuizzes (fuel : nat) : M json :=
  match fuel with
  | O => unfinished
  | S fuel =>
      let* hs := getAuthHeaders in
      let* res := fetch (Request (API_BASE +:+ "/api/user/quizzes") "GET" hs NoBody) in
      let* again := handleAuthError res in
      if again then getUserQuizzes fuel
      else if negb (ok res) then
        let* error := json_or_empty res in
        throw_detail error "Failed to fetch quizzes"
      else res_json res
  end.

End Api.

(** ** The operations as families *)

(** The seven operations that send the bearer token and recover from a
    401; the argument of each is the argument of the call. *)
Inductive protected_op : Type :=
  | GetUserProfile
  | SummarizeText (text : string)
  | SummarizeYouTube (url : string)
  | SummarizePDF (file : string)
  | GenerateQuiz (summary : string)
  | GetUserSummaries
  | GetUserQuizzes.

(** Every exported function that talks to the backend on behalf of a
    caller. *)
Inductive operation : Type :=
  | RegisterUser (email : string) (phone : json) (fullName : string)
  | SendOTP (phone : json) (email : string)
  | VerifyOTP (email otp : string)
  | Protected (op : protected_op)
  | DownloadQuizPdf (title : string) (quizData : json).

Definition session_expired : exn := Error "Session expired. Please login again.".

Section Families.

Context {env : Env}.

Definition run (op : protected_op) (fuel : nat) : M json :=
  match op with
  | GetUserProfile => getUserProfile fuel
  | SummarizeText text => summarizeText text fuel
  | SummarizeYouTube url => summarizeYouTube url fuel
  | SummarizePDF file => summarizePDF file fuel
  | GenerateQuiz summary => generateQuiz summary fuel
  | GetUserSummaries => getUserSummaries fuel
  | GetUserQuizzes => getUserQuizzes fuel
  end.

(** The request an operation builds when [getItem('access_token')]
    returns [token]. *)
Definition request_of (op : protected_op) (token : option string) : request :=
  let hs := ("Content-Type", "application/json") :: bearer token in
  match op with
  | GetUserProfile => Request (API_BASE +:+ "/api/user/profile") "GET" hs NoBody
  | SummarizeText text =>
      Request (API_BASE +:+ "/api/summarize") "POST" hs
        (JsonBody (JObj [("text", JStr text)]))
  | SummarizeYouTube url =>
      Request (API_BASE +:+ "/api/summarize") "POST" hs
        (JsonBody (JObj [("youtube_url", JStr url)]))
  | SummarizePDF file =>
      Request (API_BASE +:+ "/api/summarize-pdf") "POST" (bearer token)
        (FormBody file)
  | GenerateQuiz summary =>
      Request (API_BASE +:+ "/api/quiz") "POST" hs
        (JsonBody (JObj [("text", JStr summary)]))
  | GetUserSummaries => Request (API_BASE +:+ "/api/user/summaries") "GET" hs NoBody
  | GetUserQuizzes => Request (API_BASE +:+ "/api/user/quizzes") "GET" hs NoBody
  end.

(** The message used when the error body has no usable [detail]. *)
Definition fallback (op : protected_op) (res : response) : string :=
  match op with
  | GetUserProfile => "Failed to fetch profile"
  | SummarizeText _ => "Failed to summarize text"
  | SummarizeYouTube _ =>
      "HTTP " +:+ pretty (status res) +:+ ": Failed to summarize YouTube"
  | SummarizePDF _ => "Failed to summarize PDF"
  | GenerateQuiz _ => "Failed to generate quiz"
  | GetUserSummaries => "Failed to fetch summaries"
  | GetUserQuizzes => "Failed to fetch quizzes"
  end.

(** What an operation does with a response once [handleAuthError] has
    returned [false]: the generic non-2xx check, then the parsed body. *)
Definition settle (op : protected_op) (res : response) : M json :=
  if negb (ok res) then
    let* error := json_or_empty res in
    throw_detail error (fallback op res)
  else res_json res.

(** The common shape of the seven functions. *)
Fixpoint protected_call (op : protected_op) (fuel : nat) : M json :=
  match fuel with
  | O => unfinished
  | S fuel =>
      let* token := getItem "access_token" in
      let* res := fetch (request_of op token) in
      let* again := handleAuthError res in
      if again then protected_call op fuel else settle op res
  end.

Definition map_result {A B} (f : A -> B) (m : M A) : M B :=
  let* a := m in ret (f a).

(** An operation's result as a JavaScript value; the download resolves
    with [undefined]. *)
Definition perform (o : operation) (fuel : nat) : M value :=
  match o with
  | RegisterUser email phone fullName => map_result Some (registerUser email phone fullName)
  | SendOTP phone email => map_result Some (sendOTP phone email)
  | VerifyOTP email otp => map_result Some (verifyOTP email otp)
  | Protected op => map_result Some (run op fuel)
  | DownloadQuizPdf title quizData =>
      map_result (fun _ => undefined) (downloadQuizPdf title quizData)
  end.

(** The first request an operation sends from a given storage. *)
Definition first_request (o : operation) (st : gmap string string) : request :=
  match o with
  | RegisterUser email phone fullName =>
      Request (API_BASE +:+ "/api/auth/register") "POST" json_headers
        (JsonBody (JObj [("email", JStr email);
                         ("phone", or_else (Some phone) (JStr ""));
                         ("full_name", JStr fullName)]))
  | SendOTP phone email =>
      Request (API_BASE +:+ "/api/auth/send-otp") "POST" json_headers
        (JsonBody (JObj [("email", JStr email); ("phone", phone)]))
  | VerifyOTP email otp =>
      Request (API_BASE +:+ "/api/auth/verify-otp") "POST" json_headers
        (JsonBody (JObj [("email", JStr email); ("otp", JStr otp)]))
  | Protected op => request_of op (st !! "access_token")
  | DownloadQuizPdf title quizData =>
      Request (API_BASE +:+ "/api/download-quiz") "POST" json_headers
        (JsonBody (JObj [("title", JStr title); ("quiz_data", quizData)]))
  end.

Definition refresh_url : string := API_BASE +:+ "/api/auth/refresh".

Definition refresh_request (refreshToken : option string) : request :=
  Request refresh_url "POST" json_headers
    (JsonBody (JObj [("refresh_token", item refreshToken)])).

(** The value of the [Authorization] header of a request, if it has one. *)
Fixpoint header (name : string) (hs : list (string * string)) : option string :=
  match hs with
  | [] => None
  | (k, v) :: rest => if decide (k = name) then Some v else header name rest
  end.

Definition authorization (req : request) : option string :=
  header "Authorization" (headers req).

(** The world right after [fetch req] has settled with [res]. *)
Definition after_fetch (w : world) (req : request) (res : fetch_result) : world :=
  World (localStorage w) (log w ++ [EvFetch req res]).

(** How the backend answers the first request of a protected operation
    started in [w], and a refresh request sent from [w]. *)
Definition first_response (op : protected_op) (w : world) : fetch_result :=
  server (requests (log w)) (request_of op (localStorage w !! "access_token")).

Definition refresh_response (w : world) : fetch_result :=
  server (requests (log w)) (refresh_request (localStorage w !! "refresh_token")).

(** The world after a refresh that stored [token]. *)
Definition after_refresh (w : world) (res : fetch_result) (token : string) : world :=
  World (<["access_token" := token]> (localStorage w))
        (log w ++ [EvFetch (refresh_request (localStorage w !! "refresh_token")) res;
                   EvSetItem "access_token" token]).

(** The three ways a refresh sent from [w] is said to fail. *)
Inductive refresh_fails (w : world) : Prop :=
  | no_refresh_token :
      localStorage w !! "refresh_token" = None -> refresh_fails w
  | refresh_non_2xx r :
      refresh_response w = FetchResponse r -> ok r = false -> refresh_fails w
  | refresh_transport_error :
      refresh_response w = FetchRejected -> refresh_fails w.

(** Counting in a log: requests to the refresh endpoint, and 401 responses
    to any other request. *)
Definition is_refresh_attempt (ev : event) : bool :=
  match ev with
  | EvFetch req _ => bool_decide (url req = refresh_url)
  | _ => false
  end.

Definition is_unauthorized (ev : event) : bool :=
  match ev with
  | EvFetch req (FetchResponse r) =>
      (status r =? 401) && negb (bool_decide (url req = refresh_url))
  | _ => false
  end.

Definition count (p : event -> bool) (l : list event) : nat :=
  length (List.filter p l).

(** Every key stored in the first map is still stored in the second. *)
Definition keeps_keys (st st' : gmap string string) : Prop :=
  forall k, is_Some (st !! k) -> is_Some (st' !! k).

(** The world left by the failing branch of [handleAuthError]. *)
Definition signed_out (w : world) : world :=
  World (delete "refresh_token" (delete "access_token" (localStorage w)))
        (log w ++ [EvRemoveItem "access_token"; EvRemoveItem "refresh_token";
                   EvNavigate "/login"]).

End Families.

(** ** The components *)

(** [xs[i]] for a number [i]: [undefined] outside the array. *)
Definition at_index {A} (xs : list A) (i : Z) : option A :=
  if i <? 0 then None else xs !! Z.to_nat i.

(** [a === v] where [a] is an integer or [undefined] and [v] a parsed JSON
    value or [undefined]: equal when both are [undefined] or both are the
    same number. *)
Definition strict_equal_number (a : option Z) (v : value) : bool :=
  match a, v with
  | None, None => true
  | Some n, Some (JNum repr) => bool_decide (repr = pretty n)
  | _, _ => false
  end.

(** The message of an error object: the argument of [new Error(...)], and
    for the errors the runtime creates a text that depends on the browser. *)
Class Engine : Type := {
  native_message : exn -> string
}.

Definition message {engine : Engine} (e : exn) : string :=
  match e with
  | Error m => m
  | _ => native_message e
  end.

(** [s || fallback] on strings. *)
Definition or_text (s fallback : string) : string :=
  if bool_decide (s = "") then fallback else s.

(** *** [components/QuizPlayground.js] *)

Module QuizPlayground.

(** [currentIndex], [answers], [score] ([None] is [null]) and
    [showExplanation]. *)
Record state : Type := State {
  currentIndex : Z;
  answers : gmap Z Z;
  score : option Z;
  showExplanation : bool
}.

Definition initial : state := State 0 ∅ None false.

(** Which of the three trees the component returns. *)
Inductive screen : Type :=
  | NoQuestions
  | QuestionView
  | ScoreCard.

Inductive action : Type :=
  | Answer (optionIdx : Z)
  | Next
  | Prev
  | Submit
  | Retake
  | ToggleExplanation.

Section Component.

(** The prop [questions]. *)
Variable questions : list json.

(** [questions.length] *)
Definition size_of_quiz : Z := Z.of_nat (length questions).

(** [const question = questions[currentIndex]] *)
Definition question (st : state) : option json :=
  at_index questions (currentIndex st).

Definition handleAnswer (qIdx optionIdx : Z) (st : state) : state :=
  State (currentIndex st) (<[qIdx := optionIdx]> (answers st)) (score st) false.

Definition handleNext (st : state) : state :=
  if currentIndex st <? size_of_quiz - 1
  then State (currentIndex st + 1) (answers st) (score st) false
  else st.

Definition handlePrev (st : state) : state :=
  if currentIndex st >? 0
  then State (currentIndex st - 1) (answers st) (score st) false
  else st.

(** The [forEach] of [handleSubmit], from question [i] on. *)
Fixpoint count_correct (given : gmap Z Z) (i : Z) (qs : list json) (total : Z)
  : exn + Z :=
  match qs with
  | [] => inr total
  | q :: rest =>
      match get_prop q "answer_index" with
      | inl e => inl e
      | inr answer_index =>
          count_correct given (i + 1) rest
            (if strict_equal_number (given !! i) answer_index
             then total + 1 else total)
      end
  end.

Definition handleSubmit (st : state) : exn + state :=
  match count_correct (answers st) 0 questions 0 with
  | inl e => inl e
  | inr total => inr (State (currentIndex st) (answers st) (Some total)
                            (showExplanation st))
  end.

Definition handleRetake (st : state) : state := State 0 ∅ None false.

(** [disabled={Object.keys(answers).length !== questions.length}] *)
Definition submit_disabled (st : state) : bool :=
  negb (bool_decide (size (answers st) = length questions)).

(** [!score] *)
Definition no_score (st : state) : bool :=
  match score st with
  | None => true
  | Some n => n =? 0
  end.

Definition render (st : state) : screen :=
  if bool_decide (length questions = 0%nat) then NoQuestions
  else if no_score st then QuestionView
  else ScoreCard.

(** One click; a handler that throws leaves the state as it was. *)
Definition dispatch (st : state) (a : action) : state :=
  match a with
  | Answer optionIdx => handleAnswer (currentIndex st) optionIdx st
  | Next => handleNext st
  | Prev => handlePrev st
  | Submit => match handleSubmit st with
              | inr st' => st'
              | inl _ => st
              end
  | Retake => handleRetake st
  | ToggleExplanation =>
      State (currentIndex st) (answers st) (score st) (negb (showExplanation st))
  end.

Definition after (clicks : list action) : state := foldl dispatch initial clicks.

(** The current index and every answered index name a question. *)
Definition in_range (st : state) : Prop :=
  0 <= currentIndex st < size_of_quiz
  /\ forall i, is_Some (answers st !! i) -> 0 <= i < size_of_quiz.

(** [answers[i] === q.answer_index] for the question at position [i]. *)
Definition correct (given : gmap Z Z) (i : nat) : Prop :=
  exists q answer_index,
    questions !! i = Some q
    /\ get_prop q "answer_index" = inr answer_index
    /\ strict_equal_number (given !! Z.of_nat i) answer_index = true.

End Component.

Section Download.

Context {env : Env} {engine : Engine}.


End Download.

End QuizPlayground.

(** *** [components/Flashcards.js] *)

Module Flashcards.

Inductive action : Type := Prev | Next.

Section Component.

Context {A : Type}.

(** The prop [flashcards]. *)
Variable flashcards : list A.

(** [Math.max(0, i - 1)] and [Math.min(flashcards.length - 1, i + 1)] *)
Definition prev (i : Z) : Z := Z.max 0 (i - 1).
Definition next (i : Z) : Z := Z.min (Z.of_nat (length flashcards) - 1) (i + 1).

Definition dispatch (i : Z) (a : action) : Z :=
  match a with
  | Prev => prev i
  | Next => next i
  end.

Definition after (clicks : list action) : Z := foldl dispatch 0 clicks.

(** What the component shows: nothing for an empty deck, else the card
    [flashcards[i]], which must exist for its fields to be read. *)
Definition render (i : Z) : option (exn + A) :=
  if bool_decide (length flashcards = 0%nat) then None
  else Some (match at_index flashcards i with
             | Some card => inr card
             | None => inl TypeError
             end).

End Component.

End Flashcards.

(** *** [components/Login.js] *)

Module Login.

Inductive mode_t : Type := login | register.
Inductive step_t : Type := email_step | otp_step.

Record state : Type := State {
  mode : mode_t;
  step : step_t;
  email : string;
  fullName : string;
  otp : string;
  loading : bool;
  error : string;
  timer : Z
}.

Definition initial : state := State login email_step "" "" "" false "" 0.

Definition setStep (v : step_t) (st : state) : state :=
  State (mode st) v (email st) (fullName st) (otp st) (loading st) (error st) (timer st).
Definition setOtp (v : string) (st : state) : state :=
  State (mode st) (step st) (email st) (fullName st) v (loading st) (error st) (timer st).
Definition setLoading (v : bool) (st : state) : state :=
  State (mode st) (step st) (email st) (fullName st) (otp st) v (error st) (timer st).
Definition setError (v : string) (st : state) : state :=
  State (mode st) (step st) (email st) (fullName st) (otp st) (loading st) v (timer st).
Definition setTimer (v : Z) (st : state) : state :=
  State (mode st) (step st) (email st) (fullName st) (otp st) (loading st) (error st) v.

(** [\d] *)
Definition is_digit (c : Ascii.ascii) : bool :=
  (48 <=? Z.of_N (Ascii.N_of_ascii c)) && (Z.of_N (Ascii.N_of_ascii c) <=? 57).

(** [value.replace(/\D/g, '')] *)
Fixpoint strip_non_digits (value : string) : string :=
  match value with
  | EmptyString => EmptyString
  | String c rest =>
      if is_digit c then String c (strip_non_digits rest)
      else strip_non_digits rest
  end.

(** The [onChange] of the code field. *)
Definition onChangeOtp (value : string) (st : state) : state :=
  setOtp (strip_non_digits value) st.

(** [disabled={loading || otp.length !== 6}] *)
Definition verify_disabled (st : state) : bool :=
  loading st || negb (bool_decide (String.length (otp st) = 6%nat)).

(** [padString] repeated and cut to [n] characters. *)
Fixpoint padding (n : nat) (padString rest : string) : string :=
  match n with
  | O => ""
  | S n' =>
      match rest with
      | String c rest' => String c (padding n' padString rest')
      | EmptyString =>
          match padString with
          | String c rest' => String c (padding n' padString rest')
          | EmptyString => ""
          end
      end
  end.

(** [s.padStart(targetLength, padString)] *)
Definition padStart (targetLength : nat) (padString s : string) : string :=
  padding (targetLength - String.length s) padString padString +:+ s.

(** [seconds] is the state [timer], an integer.  The code computes on
    doubles; on integers below 2^53 its division, floor, remainder and
    printing are those of the integers, which is the range this definition
    stands for. *)
Definition formatTime (seconds : Z) : string :=
  let mins := seconds / 60 in
  let secs := Z.rem seconds 60 in
  pretty mins +:+ ":" +:+ padStart 2 "0" (pretty secs).

Section Handlers.

Context {env : Env} {engine : Engine}.

(** The handlers return the state once their updates are applied, the
    texts passed to [alert], and the values passed to [onLoginSuccess]. *)
Record outcome : Type := Outcome {
  next_state : state;
  alerts : list string;
  logged_in : list value
}.

Definition handleSendOTP (st : state) : M outcome :=
  let st1 := setError "" (setLoading true st) in
  let* done :=
    try_catch
      (sendOTP JNull (email st);;
       ret (Outcome (setTimer 300 (setStep otp_step st1))
              ["OTP sent! Check your email (or backend console for development)."]
              []))
      (fun err =>
         ret (Outcome (setError (or_text (message err) "Failed to send OTP") st1)
                [] [])) in
  ret (Outcome (setLoading false (next_state done)) (alerts done) (logged_in done)).

Definition handleRegister (st : state) : M outcome :=
  let st1 := setError "" (setLoading true st) in
  let* done :=
    try_catch
      (registerUser (email st) (JStr "") (fullName st);;
       sendOTP JNull (email st);;
       ret (Outcome (setTimer 300 (setStep otp_step st1))
              ["Registration successful! Check your email (or console) for OTP."]
              []))
      (fun err =>
         ret (Outcome (setError (or_text (message err) "Registration failed") st1)
                [] [])) in
  ret (Outcome (setLoading false (next_state done)) (alerts done) (logged_in done)).


Definition handleResendOTP (st : state) : M outcome :=
  if timer st >? 0 then ret (Outcome st [] [])
  else handleSendOTP st.

End Handlers.

End Login.

(** *** [App.js] *)

Module App.

Record state : Type := State {
  isAuthenticated : bool;
  user : value;
  authLoading : bool;
  summaryData : value;
  loading : bool;
  quiz : json;
  quizOpen : bool;
  quizLoading : bool
}.

Definition initial : state :=
  State false (Some JNull) true (Some JNull) false (JArr []) false false.

Definition setIsAuthenticated (v : bool) (st : state) : state :=
  State v (user st) (authLoading st) (summaryData st) (loading st) (quiz st)
        (quizOpen st) (quizLoading st).
Definition setUser (v : value) (st : state) : state :=
  State (isAuthenticated st) v (authLoading st) (summaryData st) (loading st) (quiz st)
        (quizOpen st) (quizLoading st).
Definition setAuthLoading (v : bool) (st : state) : state :=
  State (isAuthenticated st) (user st) v (summaryData st) (loading st) (quiz st)
        (quizOpen st) (quizLoading st).
Definition setSummaryData (v : value) (st : state) : state :=
  State (isAuthenticated st) (user st) (authLoading st) v (loading st) (quiz st)
        (quizOpen st) (quizLoading st).
Definition setLoading (v : bool) (st : state) : state :=
  State (isAuthenticated st) (user st) (authLoading st) (summaryData st) v (quiz st)
        (quizOpen st) (quizLoading st).
Definition setQuiz (v : json) (st : state) : state :=
  State (isAuthenticated st) (user st) (authLoading st) (summaryData st) (loading st) v
        (quizOpen st) (quizLoading st).

(** What [App] returns: the spinner, the login page or the main page. *)
Inductive page : Type := Spinner | LoginPage | MainPage.

Definition render (st : state) : page :=
  if authLoading st then Spinner
  else if negb (isAuthenticated st) then LoginPage
  else MainPage.

Definition handleLoginSuccess (userData : value) (st : state) : state :=
  setIsAuthenticated true (setUser userData st).

Section Handlers.

Context {env : Env}.

Definition checkAuth (fuel : nat) (st : state) : M state :=
  let* token := getItem "access_token" in
  if negb (truthy_item token) then ret (setAuthLoading false st)
  else
    let* st' :=
      try_catch
        (let* profile := getUserProfile fuel in
         let* p := lift (get_prop profile "profile") in
         ret (setIsAuthenticated true (setUser p st)))
        (fun error =>
           emit (EvConsoleError "Auth check failed:" error);;
           ret (setIsAuthenticated false st)) in
    ret (setAuthLoading false st').

Definition handleLogout (st : state) : M state :=
  logout;;
  ret (setQuiz (JArr []) (setSummaryData (Some JNull)
         (setUser (Some JNull) (setIsAuthenticated false st)))).

End Handlers.

End App.

(** *** [components/InputTabs.js] *)

Module InputTabs.

Inductive tab : Type := text_tab | pdf_tab | youtube_tab.

(** [activeTab], [text], [file] ([None] is [null]; a chosen file is carried
    by its name) and [url]. *)
Record state : Type := State {
  activeTab : tab;
  text : string;
  file : option string;
  url : string
}.

Definition initial : state := State text_tab "" None "".

Definition code (c : Ascii.ascii) : Z := Z.of_N (Ascii.N_of_ascii c).

(** [!s.trim()]: the string, read as UTF-8, consists of white space and
    line terminators only (U+0009 to U+000D, U+0020, U+00A0, U+1680, U+2000
    to U+200A, U+2028, U+2029, U+202F, U+205F, U+3000, U+FEFF). *)
Fixpoint blank (s : string) : bool :=
  match s with
  | EmptyString => true
  | String c1 rest1 =>
      if (9 <=? code c1) && (code c1 <=? 13) || (code c1 =? 32) then blank rest1
      else
        match rest1 with
        | EmptyString => false
        | String c2 rest2 =>
            if (code c1 =? 194) && (code c2 =? 160) then blank rest2
            else
              match rest2 with
              | EmptyString => false
              | String c3 rest3 =>
                  if (code c1 =? 225) && (code c2 =? 154) && (code c3 =? 128)
                     || (code c1 =? 226) && (code c2 =? 128)
                        && ((128 <=? code c3) && (code c3 <=? 138)
                            || (code c3 =? 168) || (code c3 =? 169)
                            || (code c3 =? 175))
                     || (code c1 =? 226) && (code c2 =? 129) && (code c3 =? 159)
                     || (code c1 =? 227) && (code c2 =? 128) && (code c3 =? 128)
                     || (code c1 =? 239) && (code c2 =? 187) && (code c3 =? 191)
                  then blank rest3
                  else false
              end
        end
  end.

Section Handlers.

Context {env : Env} {engine : Engine}.

(** From [setLoading(true)] to the [finally]: [call] is the request of the
    active tab and [title] the title that goes with it.  The props
    [setLoading] and [onSummaryGenerated] are the setters of [App]. *)
Definition summarize (call : M json) (title : string) (app : App.state)
  : M (App.state * list string) :=
  let app1 := App.setLoading true app in
  let* done :=
    try_catch
      (let* res := call in
       let* summary := lift (get_prop res "summary") in
       ret (App.setSummaryData
              (Some (JObj [("summary", or_else summary (JStr "No summary generated."));
                           ("title", JStr title)]))
              app1,
            []))
      (fun e => ret (app1, ["Failed to summarize: " +:+ message e])) in
  ret (App.setLoading false done.1, done.2).

Definition handleSummarize (fuel : nat) (st : state) (app : App.state)
  : M (App.state * list string) :=
  match activeTab st with
  | text_tab =>
      if blank (text st) then ret (app, ["Please enter some text"])
      else summarize (summarizeText (text st) fuel) "Text Summary" app
  | pdf_tab =>
      match file st with
      | None => ret (app, ["Please upload a PDF file"])
      | Some f => summarize (summarizePDF f fuel) f app
      end
  | youtube_tab =>
      if blank (url st) then ret (app, ["Please enter a YouTube URL"])
      else summarize (summarizeYouTube (url st) fuel) "YouTube Summary" app
  end.

End Handlers.

End InputTabs.

(** ** Scripted backends *)

(** A backend that answers the n-th request it receives with the n-th
    entry of a script, whatever the request; past the end of the script
    the transport fails. *)
Definition scripted (base : option string) (script : list fetch_result) : Env :=
  {| REACT_APP_API_BASE := base;
     server := fun received _ => default FetchRejected (script !! length received) |}.

Definition unauthorized : fetch_result :=
  FetchResponse (Response 401 (Some (JObj [("detail", JStr "Token has expired")]))).

Definition refreshed (token : string) : fetch_result :=
  FetchResponse (Response 200 (Some (JObj [("access_token", JStr token)]))).

(** A backend that rejects every access token and accepts every refresh
    token: requests alternate between a protected call and a refresh. *)
Definition stubborn : Env :=
  {| REACT_APP_API_BASE := None;
     server := fun received _ =>
       if Nat.even (length received) then unauthorized else refreshed "fresh" |}.

Definition tokens (access refresh : string) : gmap string string :=
  <["refresh_token" := refresh]> (<["access_token" := access]> ∅).

Definition signed_in : world := World (tokens "A1" "R1") [].

Definition profile : json := JObj [("email", JStr "a@b.com")].

(** A response with the given status and JSON body. *)
Definition answered (code : Z) (j : json) : fetch_result :=
  FetchResponse (Response code (Some j)).

(** The backend rejects the access token twice and refreshes it twice
    before it serves the profile. *)
Definition twice_unauthorized : Env :=
  scripted None [unauthorized; refreshed "A2"; unauthorized; refreshed "A3";
                 answered 200 profile].

(** The backend rejects the access token once, refreshes it, then serves
    the profile. *)
Definition once_unauthorized : Env :=
  scripted None [unauthorized; refreshed "A2"; answered 200 profile].

(** The backend rejects the access token and then refuses the refresh. *)
Definition refresh_refused : Env :=
  scripted None [unauthorized;
                 answered 400 (JObj [("detail", JStr "Invalid refresh token")])].

(** The verify-otp endpoint hands out an empty access token; the profile
    request that follows is served. *)
Definition empty_access_token : Env :=
  scripted None [answered 200 (JObj [("access_token", JStr "");
                                     ("refresh_token", JStr "R1");
                                     ("user", profile)]);
                 answered 200 profile].

(** A backend that looks at the request: the refresh endpoint grants the
    access token "A2" to whoever asks, and every other endpoint serves the
    profile to a request that carries that token and answers 401 to any
    other. *)
Definition token_checking : Env :=
  {| REACT_APP_API_BASE := None;
     server := fun _ req =>
       if bool_decide (url req = "http://localhost:8000/api/auth/refresh")
       then refreshed "A2"
       else if bool_decide (header "Authorization" (headers req) = Some "Bearer A2")
            then answered 200 profile
            else unauthorized |}.

(** The refresh endpoint grants the empty string as access token. *)
Definition empty_refreshed_token : Env :=
  scripted None [unauthorized; refreshed ""; answered 200 profile].

(** The verify-otp endpoint answers 200 with the body [null], and 200 with
    a body that is not JSON. *)
Definition otp_answered_with_null : Env := scripted None [answered 200 JNull].

Definition otp_answered_without_json : Env :=
  scripted None [FetchResponse (Response 200 None)].

(** The verify-otp endpoint accepts the code. *)
Definition otp_accepted : Env :=
  scripted None [answered 200 (JObj [("access_token", JStr "A1");
                                     ("refresh_token", JStr "R1");
                                     ("user", profile)])].

(** The backend answers 500 with a detail message. *)
Definition server_error : Env :=
  scripted None [answered 500 (JObj [("detail", JStr "Internal Server Error")])].

(** The backend answers 502 with a body that is not JSON. *)
Definition bad_gateway : Env := scripted None [FetchResponse (Response 502 None)].

(** The backend answers 500 with the JSON body [null]. *)
Definition null_error : Env := scripted None [answered 500 JNull].

(** The backend serves the profile at once. *)
Definition profile_served : Env :=
  scripted None [answered 200 (JObj [("profile", profile)])].

(** The code is accepted, then the profile is served. *)
Definition sign_in_then_profile : Env :=
  scripted None [answered 200 (JObj [("access_token", JStr "A1");
                                     ("refresh_token", JStr "R1");
                                     ("user", profile)]);
                 answered 200 (JObj [("profile", profile)])].

(** The backend answers 401 once. *)
Definition rejected_once : Env := scripted None [unauthorized].

(** The refresh endpoint answers 200 without an [access_token]. *)
Definition refresh_without_token : Env :=
  scripted None [answered 200 (JObj [("token_type", JStr "bearer")])].

(** The verify-otp endpoint answers 200 with an empty array. *)
Definition otp_answered_with_array : Env := scripted None [answered 200 (JArr [])].

Definition registration_refused : Env :=
  scripted None [answered 400 (JObj [("detail", JStr "Email already registered")])].

Definition registration_accepted : Env :=
  scripted None [answered 200 (JObj [("email", JStr "a@b.com")]);
                 answered 200 (JObj [("message", JStr "OTP sent")])].

(** An engine for the examples.  The texts it gives to the errors the
    runtime creates are stand-ins: a browser's own text names the property
    read and the offending input. *)
Definition example_engine : Engine :=
  {| native_message := fun e =>
       match e with
       | Error m => m
       | TypeError => "TypeError"
       | SyntaxError => "SyntaxError"
       | NetworkError => "Failed to fetch"
       end |}.

Definition sample_quiz : list json :=
  [JObj [("question", JStr "2 + 2 = ?");
         ("options", JArr [JStr "3"; JStr "4"]);
         ("answer_index", JNum "1")];
   JObj [("question", JStr "3 * 3 = ?");
         ("options", JArr [JStr "9"; JStr "6"]);
         ("answer_index", JNum "0")]].

Definition registering : Login.state :=
  Login.State Login.register Login.email_step "a@b.com" "Ada" "" false "" 0.

(** ** Properties *)

Section Properties.

Context {env : Env}.

Implicit Types (w : world) (op : protected_op) (fuel : nat) (r : response).

Lemma bind_ext {A B} (m : M A) (k1 k2 : A -> M B) w :
  (forall a w', k1 a w' = k2 a w') -> bind m k1 w = bind m k2 w.
Proof.
  intros Hk. unfold bind. destruct (m w) as [[a| e |] w']; auto.
Qed.

Lemma bind_getItem {B} k (K : option string -> M B) w :
  bind (getItem k) K w = K (localStorage w !! k) w.
Proof. reflexivity. Qed.

Lemma bind_getAuthHeaders {B} (K : list (string * string) -> M B) w :
  bind getAuthHeaders K w
  = K (("Content-Type", "application/json") :: bearer (localStorage w !! "access_token")) w.
Proof. reflexivity. Qed.

Lemma truthy_item_nonempty (s : string) : s <> "" -> truthy_item (Some s) = true.
Proof.
  intros H. unfold truthy_item, item, truthy. by rewrite bool_decide_eq_false_2.
Qed.

Lemma bearer_nonempty (s : string) :
  s <> "" -> bearer (Some s) = [("Authorization", "Bearer " +:+ s)].
Proof.
  intros H. unfold bearer. by rewrite truthy_item_nonempty.
Qed.

(** Each of the seven functions is an instance of the common shape. *)
Lemma run_protected_call op fuel w : run op fuel w = protected_call op fuel w.
Proof.
  revert w. induction fuel as [| fuel IH]; intros w.
  - destruct op; reflexivity.
  - destruct op; simpl;
      rewrite ?bind_getAuthHeaders, !bind_getItem;
      (apply bind_ext; intros res w1; apply bind_ext; intros [|] w2;
       [ apply IH | reflexivity ]).
Qed.

(** *** [refreshAccessToken], case by case *)

Lemma refresh_no_token w :
  truthy_item (localStorage w !! "refresh_token") = false ->
  refreshAccessToken w = (Normal false, w).
Proof.
  intros H. unfold refreshAccessToken. rewrite bind_getItem, H. reflexivity.
Qed.

Lemma refresh_rejected w :
  truthy_item (localStorage w !! "refresh_token") = true ->
  refresh_response w = FetchRejected ->
  refreshAccessToken w
  = (Normal false,
     after_fetch w (refresh_request (localStorage w !! "refresh_token")) FetchRejected).
Proof.
  intros Ht Hr. unfold refreshAccessToken. rewrite bind_getItem, Ht. simpl.
  unfold try_catch, bind, fetch. fold refresh_url.
  fold (refresh_request (localStorage w !! "refresh_token")).
  fold (refresh_response w). rewrite Hr. reflexivity.
Qed.

Lemma refresh_not_ok w r :
  truthy_item (localStorage w !! "refresh_token") = true ->
  refresh_response w = FetchResponse r ->
  ok r = false ->
  refreshAccessToken w
  = (Normal false,
     after_fetch w (refresh_request (localStorage w !! "refresh_token")) (FetchResponse r)).
Proof.
  intros Ht Hr Hok. unfold refreshAccessToken. rewrite bind_getItem, Ht. simpl.
  unfold try_catch, bind, fetch. fold refresh_url.
  fold (refresh_request (localStorage w !! "refresh_token")).
  fold (refresh_response w). rewrite Hr, Hok. reflexivity.
Qed.

Lemma refresh_bad_body w r :
  truthy_item (localStorage w !! "refresh_token") = true ->
  refresh_response w = FetchResponse r ->
  ok r = true ->
  json_body r = None \/ json_body r = Some JNull ->
  refreshAccessToken w
  = (Normal false,
     after_fetch w (refresh_request (localStorage w !! "refresh_token")) (FetchResponse r)).
Proof.
  intros Ht Hr Hok Hb. unfold refreshAccessToken. rewrite bind_getItem, Ht. simpl.
  unfold try_catch, bind, fetch. fold refresh_url.
  fold (refresh_request (localStorage w !! "refresh_token")).
  fold (refresh_response w). rewrite Hr, Hok. unfold res_json.
  destruct Hb as [-> | ->]; reflexivity.
Qed.

Lemma refresh_success w r data token :
  truthy_item (localStorage w !! "refresh_token") = true ->
  refresh_response w = FetchResponse r ->
  ok r = true ->
  json_body r = Some data ->
  get_prop data "access_token" = inr token ->
  refreshAccessToken w = (Normal true, after_refresh w (FetchResponse r) (ToString token)).
Proof.
  intros Ht Hr Hok Hb Hp. unfold refreshAccessToken. rewrite bind_getItem, Ht. simpl.
  unfold try_catch, bind, fetch. fold refresh_url.
  fold (refresh_request (localStorage w !! "refresh_token")).
  fold (refresh_response w). rewrite Hr, Hok. unfold res_json. rewrite Hb. simpl.
  rewrite Hp. simpl. unfold after_refresh. simpl. rewrite <- app_assoc. reflexivity.
Qed.

(** Every call of [refreshAccessToken] ends in one of three ways: no
    request at all, a request and [false], or a request, one [setItem] and
    [true].  It never throws. *)
Lemma refresh_cases w :
  let stored := localStorage w !! "refresh_token" in
  (truthy_item stored = false /\ refreshAccessToken w = (Normal false, w))
  \/ (truthy_item stored = true /\
      refreshAccessToken w
      = (Normal false, after_fetch w (refresh_request stored) (refresh_response w)))
  \/ (truthy_item stored = true /\
      exists r data access,
        refresh_response w = FetchResponse r /\ ok r = true /\
        json_body r = Some data /\ get_prop data "access_token" = inr access /\
        refreshAccessToken w
        = (Normal true, after_refresh w (FetchResponse r) (ToString access))).
Proof.
  intros stored. subst stored.
  destruct (truthy_item (localStorage w !! "refresh_token")) eqn:Ht.
  2: { left. split; [done | by apply refresh_no_token]. }
  right.
  destruct (refresh_response w) as [| r] eqn:Hr.
  { left. split; [done | by apply refresh_rejected]. }
  destruct (ok r) eqn:Hok.
  2: { left. split; [done | by apply refresh_not_ok]. }
  destruct (json_body r) as [data |] eqn:Hb.
  2: { left. split; [done | apply refresh_bad_body; auto]. }
  destruct (get_prop data "access_token") as [e | token] eqn:Hp.
  { left. split; [done |]. apply refresh_bad_body; auto.
    right. destruct data; simpl in Hp; congruence. }
  right. split; [done |]. exists r, data, token.
  repeat (split; [done |]). by eapply refresh_success.
Qed.

(** *** One round of a protected operation *)

Lemma run_rejected op fuel w :
  first_response op w = FetchRejected ->
  run op (S fuel) w
  = (Abrupt NetworkError,
     after_fetch w (request_of op (localStorage w !! "access_token")) FetchRejected).
Proof.
  intros Hf. rewrite run_protected_call. simpl. rewrite bind_getItem.
  unfold bind at 1. unfold fetch. fold (first_response op w). rewrite Hf.
  reflexivity.
Qed.

Lemma run_settle op fuel w r :
  first_response op w = FetchResponse r ->
  status r <> 401 ->
  run op (S fuel) w
  = settle op r (after_fetch w (request_of op (localStorage w !! "access_token"))
                             (FetchResponse r)).
Proof.
  intros Hf Hs. rewrite run_protected_call. simpl. rewrite bind_getItem.
  unfold bind at 1. unfold fetch. fold (first_response op w). rewrite Hf.
  unfold handleAuthError. apply Z.eqb_neq in Hs. rewrite Hs. reflexivity.
Qed.

Lemma run_unauthorized op fuel w r :
  first_response op w = FetchResponse r ->
  status r = 401 ->
  run op (S fuel) w
  = let w1 := after_fetch w (request_of op (localStorage w !! "access_token"))
                          (FetchResponse r) in
    match refreshAccessToken w1 with
    | (Normal true, w2) => run op fuel w2
    | (_, w2) => (Abrupt session_expired, signed_out w2)
    end.
Proof.
  intros Hf Hs. rewrite run_protected_call. simpl. rewrite bind_getItem.
  unfold bind at 1. unfold fetch. fold (first_response op w). rewrite Hf.
  unfold handleAuthError. apply Z.eqb_eq in Hs. rewrite Hs.
  set (w1 := World _ _).
  destruct (refresh_cases w1)
    as [[_ E] | [[_ E] | [_ (r' & data & access & _ & _ & _ & _ & E)]]];
    unfold bind at 1; unfold bind at 1; change (after_fetch w _ _) with w1;
    rewrite E; simpl.
  - unfold signed_out, session_expired. simpl. rewrite <- !app_assoc. reflexivity.
  - unfold signed_out, session_expired. simpl. rewrite <- !app_assoc. reflexivity.
  - symmetry. apply run_protected_call.
Qed.

(** [settle] has no effect on the world; it never resolves a response
    that is not 2xx. *)
Lemma settle_cases op r w :
  exists c, settle op r w = (c, w) /\ c <> Unfinished
            /\ (ok r = false -> exists e, c = Abrupt e).
Proof.
  unfold settle, json_or_empty, res_json, throw_detail, try_catch, bind.
  destruct (ok r); simpl.
  - destruct (json_body r); eexists; (split; [reflexivity |]); split; done.
  - destruct (json_body r) as [[] |]; simpl;
      eexists; (split; [reflexivity |]); split; eauto; done.
Qed.

Lemma request_url_not_refresh op token : url (request_of op token) <> refresh_url.
Proof.
  unfold refresh_url.
  destruct op; simpl; intros H; apply (inj (String.append API_BASE)) in H;
    discriminate.
Qed.

Lemma count_app p (l1 l2 : list event) : count p (l1 ++ l2) = (count p l1 + count p l2)%nat.
Proof. unfold count. by rewrite List.filter_app, length_app. Qed.

Lemma count_cons p ev (l : list event) :
  count p (ev :: l) = ((if p ev then 1 else 0) + count p l)%nat.
Proof. unfold count. simpl. by destruct (p ev). Qed.

Lemma refresh_attempt_request token res :
  is_refresh_attempt (EvFetch (refresh_request token) res) = true.
Proof. simpl. by apply bool_decide_eq_true_2. Qed.

Lemma unauthorized_refresh_request token res :
  is_unauthorized (EvFetch (refresh_request token) res) = false.
Proof.
  destruct res as [| r]; [done |]. simpl.
  rewrite bool_decide_eq_true_2 by done. apply andb_false_r.
Qed.

Lemma refresh_attempt_operation op token res :
  is_refresh_attempt (EvFetch (request_of op token) res) = false.
Proof. simpl. apply bool_decide_eq_false_2, request_url_not_refresh. Qed.

(** What a call of [refreshAccessToken] can change. *)
Lemma refresh_effect w c w2 :
  refreshAccessToken w = (c, w2) ->
  exists b new,
    c = Normal b
    /\ log w2 = (log w ++ new)%list
    /\ count is_unauthorized new = 0%nat
    /\ count is_refresh_attempt new
       = (if truthy_item (localStorage w !! "refresh_token") then 1 else 0)%nat
    /\ localStorage w2 !! "refresh_token" = localStorage w !! "refresh_token"
    /\ (forall k, is_Some (localStorage w !! k) -> is_Some (localStorage w2 !! k))
    /\ (b = false -> localStorage w2 = localStorage w)
    /\ (b = true -> truthy_item (localStorage w !! "refresh_token") = true).
Proof.
  intros E.
  destruct (refresh_cases w)
    as [[Ht E'] | [[Ht E'] | [Ht (r & data & access & _ & _ & _ & _ & E')]]];
    rewrite E' in E; injection E as <- <-; rewrite Ht.
  - exists false, []. rewrite app_nil_r. repeat split; auto; done.
  - exists false, [EvFetch (refresh_request (localStorage w !! "refresh_token"))
                          (refresh_response w)].
    repeat split; auto; try done.
    + rewrite count_cons, unauthorized_refresh_request. done.
    + rewrite count_cons, refresh_attempt_request. done.
  - exists true, [EvFetch (refresh_request (localStorage w !! "refresh_token"))
                         (FetchResponse r);
                 EvSetItem "access_token" (ToString access)].
    repeat split; auto; try done.
    + rewrite count_cons, unauthorized_refresh_request. done.
    + rewrite count_cons, refresh_attempt_request. done.
    + simpl. by rewrite lookup_insert_ne.
    + intros k Hk. simpl. destruct (decide (k = "access_token")) as [-> |].
      * rewrite lookup_insert_eq. eauto.
      * by rewrite lookup_insert_ne.
Qed.

(** Induction over the rounds of a protected operation: a property of the
    starting world and the outcome holds of every run if it holds of each
    way a round can end and is carried back over a retry. *)
Lemma run_ind op (P : world -> completion json * world -> Prop) :
  (forall w, P w (Unfinished, w)) ->
  (forall w,
     first_response op w = FetchRejected ->
     P w (Abrupt NetworkError,
          after_fetch w (request_of op (localStorage w !! "access_token")) FetchRejected)) ->
  (forall w r,
     first_response op w = FetchResponse r -> status r <> 401 ->
     P w (settle op r (after_fetch w (request_of op (localStorage w !! "access_token"))
                                   (FetchResponse r)))) ->
  (forall w r w2,
     first_response op w = FetchResponse r -> status r = 401 ->
     refreshAccessToken (after_fetch w (request_of op (localStorage w !! "access_token"))
                                     (FetchResponse r)) = (Normal false, w2) ->
     P w (Abrupt session_expired, signed_out w2)) ->
  (forall w r w2 out,
     first_response op w = FetchResponse r -> status r = 401 ->
     refreshAccessToken (after_fetch w (request_of op (localStorage w !! "access_token"))
                                     (FetchResponse r)) = (Normal true, w2) ->
     P w2 out -> P w out) ->
  forall fuel w, P w (run op fuel w).
Proof.
  intros Hzero Hrej Hset Hfail Hretry fuel.
  induction fuel as [| fuel IH]; intros w.
  - rewrite run_protected_call. apply Hzero.
  - destruct (first_response op w) as [| r] eqn:Hf.
    + rewrite (run_rejected _ _ _ Hf). by apply Hrej.
    + destruct (decide (status r = 401)) as [Hs | Hs].
      * rewrite (run_unauthorized _ _ _ _ Hf Hs). cbv zeta.
        destruct (refreshAccessToken _) as [c w2] eqn:E.
        destruct (refresh_effect _ _ _ E) as (b & new & -> & _).
        destruct b.
        -- eapply Hretry; eauto.
        -- eapply Hfail; eauto.
      * rewrite (run_settle _ _ _ _ Hf Hs). by apply Hset.
Qed.

(** *** The failed-refresh path *)

(** C2: when a protected operation receives a 401 and the refresh that
    follows fails (no stored refresh token, a non-2xx answer from the
    refresh endpoint, or a transport error), both stored tokens are removed
    and the operation rejects with the session-expired error. *)
Theorem failed_refresh_signs_out op fuel w r :
  first_response op w = FetchResponse r ->
  status r = 401 ->
  refresh_fails (after_fetch w (request_of op (localStorage w !! "access_token"))
                             (FetchResponse r)) ->
  exists w2,
    run op (S fuel) w = (Abrupt session_expired, signed_out w2)
    /\ localStorage w2 = localStorage w
    /\ localStorage (signed_out w2) !! "access_token" = None
    /\ localStorage (signed_out w2) !! "refresh_token" = None.
Proof.
  intros Hf Hs Hfail. rewrite (run_unauthorized _ _ _ _ Hf Hs). cbv zeta.
  set (w1 := after_fetch _ _ _) in *.
  assert (Hclear : forall w2, localStorage w2 = localStorage w ->
            localStorage (signed_out w2) !! "access_token" = None
            /\ localStorage (signed_out w2) !! "refresh_token" = None).
  { intros w2 _. simpl. split; [| apply lookup_delete_eq].
    rewrite lookup_delete_ne by done. apply lookup_delete_eq. }
  destruct (refresh_cases w1)
    as [[_ E] | [[_ E] | [Ht (r' & data & access & Hr & Hok & _)]]].
  - rewrite E. exists w1. split; [done |]. split; [done |]. by apply Hclear.
  - rewrite E. eexists. split; [done |]. split; [done |]. by apply Hclear.
  - exfalso. destruct Hfail as [Hnone | r0 Hr0 Hok0 | Hrej].
    + rewrite Hnone in Ht. discriminate.
    + rewrite Hr in Hr0. injection Hr0 as ->. congruence.
    + congruence.
Qed.

(** C3, as the code has it: with a stored refresh token that is not the
    empty string, a first response of 401, a refresh answered 2xx with a
    JSON body other than [null], and a retried request answered 200 with a
    JSON body, the operation resolves with that body.  The log gains exactly
    the first request, the refresh request, one [setItem] of the access
    token (the text of the [access_token] field of the refresh answer) and
    the retried request; the retried request is built from the refreshed
    token, so it carries [Authorization: Bearer <token>] unless that token
    is the empty string; the refresh token stays as it was. *)
Theorem refresh_then_retry_resolves op fuel w rt r1 r2 data access r3 v :
  localStorage w !! "refresh_token" = Some rt ->
  rt <> "" ->
  first_response op w = FetchResponse r1 ->
  status r1 = 401 ->
  let w1 := after_fetch w (request_of op (localStorage w !! "access_token"))
                        (FetchResponse r1) in
  refresh_response w1 = FetchResponse r2 ->
  ok r2 = true ->
  json_body r2 = Some data ->
  get_prop data "access_token" = inr access ->
  let token := ToString access in
  let w2 := after_refresh w1 (FetchResponse r2) token in
  first_response op w2 = FetchResponse r3 ->
  status r3 = 200 ->
  json_body r3 = Some v ->
  let w3 := after_fetch w2 (request_of op (Some token)) (FetchResponse r3) in
  run op (S (S fuel)) w = (Normal v, w3)
  /\ log w3
     = (log w ++ [EvFetch (request_of op (localStorage w !! "access_token"))
                          (FetchResponse r1);
                  EvFetch (refresh_request (Some rt)) (FetchResponse r2);
                  EvSetItem "access_token" token;
                  EvFetch (request_of op (Some token)) (FetchResponse r3)])%list
  /\ localStorage w3 = <["access_token" := token]> (localStorage w)
  /\ localStorage w3 !! "refresh_token" = Some rt
  /\ authorization (request_of op (Some token))
     = if bool_decide (token = "") then None else Some ("Bearer " +:+ token).
Proof.
  intros Hrt Hne Hf1 Hs1 w1 Hr2 Hok2 Hb2 Hp token w2 Hf3 Hs3 Hb3 w3.
  assert (Ht : truthy_item (localStorage w1 !! "refresh_token") = true).
  { simpl. rewrite Hrt. by apply truthy_item_nonempty. }
  assert (Hat : localStorage w2 !! "access_token" = Some token).
  { simpl. apply lookup_insert_eq. }
  split; [| split; [| split; [| split]]].
  - rewrite (run_unauthorized _ _ _ _ Hf1 Hs1). cbv zeta. fold w1.
    rewrite (refresh_success _ _ _ _ Ht Hr2 Hok2 Hb2 Hp). fold token. fold w2.
    rewrite (run_settle _ _ _ _ Hf3) by (rewrite Hs3; discriminate).
    rewrite Hat. fold w3. unfold settle, ok, res_json. rewrite Hs3, Hb3.
    reflexivity.
  - simpl. rewrite Hrt, <- !app_assoc. reflexivity.
  - reflexivity.
  - simpl. rewrite lookup_insert_ne by done. exact Hrt.
  - destruct (decide (token = "")) as [Hempty | Hfull].
    + rewrite bool_decide_eq_true_2 by done. rewrite Hempty.
      destruct op; reflexivity.
    + rewrite bool_decide_eq_false_2 by done. unfold authorization.
      destruct op; simpl; rewrite (bearer_nonempty _ Hfull); reflexivity.
Qed.

(** C6: with no refresh token in storage, [refreshAccessToken] returns
    [false] at once; the world, and so the log of requests, is unchanged. *)
Theorem refresh_without_token_sends_nothing w :
  localStorage w !! "refresh_token" = None ->
  refreshAccessToken w = (Normal false, w).
Proof.
  intros H. apply refresh_no_token. rewrite H. reflexivity.
Qed.

(** C7: [logout] always completes normally and leaves neither token in
    storage, whatever was stored before. *)
Theorem logout_removes_both_tokens w :
  exists w',
    logout w = (Normal tt, w')
    /\ localStorage w' = delete "refresh_token" (delete "access_token" (localStorage w))
    /\ localStorage w' !! "access_token" = None
    /\ localStorage w' !! "refresh_token" = None.
Proof.
  eexists. split; [reflexivity |]. simpl. split; [reflexivity |].
  split; [| apply lookup_delete_eq].
  rewrite lookup_delete_ne by done. apply lookup_delete_eq.
Qed.

(** *** Refresh attempts and 401 responses *)

(** In every run the refresh requests are as many as the 401 responses to
    the operation's own requests while a non-empty refresh token is stored,
    and none otherwise. *)
Lemma refresh_attempts_follow_unauthorized_responses op fuel w :
  exists new,
    log (run op fuel w).2 = (log w ++ new)%list
    /\ count is_refresh_attempt new
       = if truthy_item (localStorage w !! "refresh_token")
         then count is_unauthorized new
         else 0%nat.
Proof.
  revert fuel w.
  apply (run_ind op (fun w out =>
    exists new,
      log out.2 = (log w ++ new)%list
      /\ count is_refresh_attempt new
         = if truthy_item (localStorage w !! "refresh_token")
           then count is_unauthorized new
           else 0%nat)).
  - intros w. exists []. rewrite app_nil_r. split; [done |].
    by destruct (truthy_item _).
  - intros w Hf. eexists [_]. split; [reflexivity |].
    rewrite !count_cons, refresh_attempt_operation. simpl.
    by destruct (truthy_item _).
  - intros w r Hf Hs.
    destruct (settle_cases op r
                (after_fetch w (request_of op (localStorage w !! "access_token"))
                             (FetchResponse r))) as (c & -> & _).
    eexists [_]. split; [reflexivity |].
    rewrite !count_cons, refresh_attempt_operation. simpl.
    apply Z.eqb_neq in Hs. rewrite Hs. simpl. by destruct (truthy_item _).
  - intros w r w2 Hf Hs E.
    destruct (refresh_effect _ _ _ E) as (b & new & _ & Hlog & Hu & Hr & _).
    simpl in Hlog, Hr.
    eexists (_ :: new ++ [_; _; _])%list. split.
    { simpl. rewrite Hlog, <- !app_assoc. reflexivity. }
    rewrite !count_cons, !count_app, refresh_attempt_operation, Hu, Hr. simpl.
    apply Z.eqb_eq in Hs. rewrite Hs.
    rewrite (bool_decide_eq_false_2 _ (request_url_not_refresh _ _)). simpl.
    destruct (truthy_item _); reflexivity.
  - intros w r w2 out Hf Hs E (new' & Hlog' & Hcount).
    destruct (refresh_effect _ _ _ E)
      as (b & new & [= <-] & Hlog & Hu & Hr & Hrt & _ & _ & Htruthy).
    simpl in Hlog, Hr, Hrt, Htruthy. specialize (Htruthy eq_refl).
    rewrite Hrt, Htruthy in Hcount. rewrite Htruthy in Hr.
    exists (EvFetch (request_of op (localStorage w !! "access_token")) (FetchResponse r)
              :: new ++ new')%list.
    split.
    { rewrite Hlog', Hlog, <- !app_assoc. reflexivity. }
    rewrite Htruthy, !count_cons, !count_app, refresh_attempt_operation, Hu, Hr, Hcount.
    simpl. apply Z.eqb_eq in Hs. rewrite Hs.
    rewrite (bool_decide_eq_false_2 _ (request_url_not_refresh _ _)). simpl.
    reflexivity.
Qed.

(** *** The Authorization header *)

Lemma authorization_request_of op token :
  authorization (request_of op token)
  = if truthy_item token then Some ("Bearer " +:+ to_string (item token)) else None.
Proof.
  unfold authorization, bearer.
  destruct op; simpl; unfold bearer; destruct (truthy_item token); reflexivity.
Qed.

(** A run only appends to the log. *)
Lemma run_log_extends op fuel w :
  exists new, log (run op fuel w).2 = (log w ++ new)%list.
Proof.
  revert fuel w.
  apply (run_ind op (fun w out => exists new, log out.2 = (log w ++ new)%list)).
  - intros w. exists []. by rewrite app_nil_r.
  - intros w _. by eexists [_].
  - intros w r _ _.
    destruct (settle_cases op r
                (after_fetch w (request_of op (localStorage w !! "access_token"))
                             (FetchResponse r))) as (c & -> & _).
    by eexists [_].
  - intros w r w2 _ _ E.
    destruct (refresh_effect _ _ _ E) as (b & new & _ & Hlog & _).
    simpl in Hlog. eexists (_ :: new ++ [_; _; _])%list.
    simpl. rewrite Hlog, <- !app_assoc. reflexivity.
  - intros w r w2 out _ _ E (new' & Hlog').
    destruct (refresh_effect _ _ _ E) as (b & new & _ & Hlog & _).
    simpl in Hlog. eexists (_ :: new ++ new')%list.
    rewrite Hlog', Hlog, <- !app_assoc. reflexivity.
Qed.

Lemma run_first_event op fuel w :
  exists rest,
    log (run op (S fuel) w).2
    = (log w ++ EvFetch (request_of op (localStorage w !! "access_token"))
                        (first_response op w) :: rest)%list.
Proof.
  destruct (first_response op w) as [| r] eqn:Hf.
  - rewrite (run_rejected _ _ _ Hf). by exists [].
  - destruct (decide (status r = 401)) as [Hs | Hs].
    + rewrite (run_unauthorized _ _ _ _ Hf Hs). cbv zeta.
      destruct (refreshAccessToken _) as [c w2] eqn:E.
      destruct (refresh_effect _ _ _ E) as (b & new & -> & Hlog & _).
      simpl in Hlog. destruct b.
      * destruct (run_log_extends op fuel w2) as (new' & Hlog').
        exists (new ++ new')%list. rewrite Hlog', Hlog, <- !app_assoc. reflexivity.
      * eexists (new ++ [_; _; _])%list. simpl.
        rewrite Hlog, <- !app_assoc. reflexivity.
    + rewrite (run_settle _ _ _ _ Hf Hs).
      destruct (settle_cases op r
                  (after_fetch w (request_of op (localStorage w !! "access_token"))
                               (FetchResponse r))) as (c & -> & _).
      by exists [].
Qed.

(** C5, as the code has it: the first request of a protected operation
    carries [Authorization: Bearer <token>] exactly when the access token
    read from storage at that moment is a non-empty string; with no stored
    token, or with the empty string stored, it carries no Authorization
    header. *)
Theorem authorization_header_follows_stored_token op fuel w :
  let token := localStorage w !! "access_token" in
  let req := request_of op token in
  (exists res rest,
     log (run op (S fuel) w).2 = (log w ++ EvFetch req res :: rest)%list)
  /\ (token = None -> authorization req = None)
  /\ (token = Some "" -> authorization req = None)
  /\ (forall t, token = Some t -> t <> "" ->
        authorization req = Some ("Bearer " +:+ t)).
Proof.
  intros token req. subst req. split; [| split; [| split]].
  - destruct (run_first_event op fuel w) as (rest & Hlog). eauto.
  - intros ->. by rewrite authorization_request_of.
  - intros ->. by rewrite authorization_request_of.
  - intros t -> Ht. rewrite authorization_request_of.
    by rewrite truthy_item_nonempty.
Qed.

(** *** The order of the two status checks *)

(** C10: a 401 answer to a protected operation is handled before the
    generic non-2xx check: the round ends in the session-expired error when
    the refresh fails, and otherwise continues as a new call of the
    operation.  Every finished run ends either that way, or in the transport
    error of its last request, or by settling its last response, whose
    status is then not 401; so no error built from the body of a 401
    response reaches the caller. *)
Theorem unauthorized_response_is_never_settled op :
  (forall fuel w r,
     first_response op w = FetchResponse r -> status r = 401 ->
     let w1 := after_fetch w (request_of op (localStorage w !! "access_token"))
                           (FetchResponse r) in
     (exists w2, refreshAccessToken w1 = (Normal false, w2)
                 /\ run op (S fuel) w = (Abrupt session_expired, signed_out w2))
     \/ (exists w2, refreshAccessToken w1 = (Normal true, w2)
                    /\ run op (S fuel) w = run op fuel w2))
  /\ (forall fuel w,
        let out := run op fuel w in
        out.1 = Unfinished
        \/ (out.1 = Abrupt session_expired /\ exists w2, out.2 = signed_out w2)
        \/ (out.1 = Abrupt NetworkError
            /\ exists req, last (log out.2) = Some (EvFetch req FetchRejected))
        \/ (exists req r,
              last (log out.2) = Some (EvFetch req (FetchResponse r))
              /\ status r <> 401
              /\ settle op r out.2 = out)).
Proof.
  split.
  - intros fuel w r Hf Hs w1. rewrite (run_unauthorized _ _ _ _ Hf Hs). cbv zeta.
    fold w1. destruct (refreshAccessToken w1) as [c w2] eqn:E.
    destruct (refresh_effect _ _ _ E) as (b & new & -> & _).
    destruct b; [right | left]; eauto.
  - apply (run_ind op (fun _ out =>
      out.1 = Unfinished
      \/ (out.1 = Abrupt session_expired /\ exists w2, out.2 = signed_out w2)
      \/ (out.1 = Abrupt NetworkError
          /\ exists req, last (log out.2) = Some (EvFetch req FetchRejected))
      \/ (exists req r,
            last (log out.2) = Some (EvFetch req (FetchResponse r))
            /\ status r <> 401
            /\ settle op r out.2 = out))).
    + intros w. by left.
    + intros w Hf. right; right; left. split; [done |].
      eexists. simpl. apply last_snoc.
    + intros w r Hf Hs. right; right; right.
      destruct (settle_cases op r
                  (after_fetch w (request_of op (localStorage w !! "access_token"))
                               (FetchResponse r))) as (c & E & _).
      rewrite E. simpl. eexists _, r. split; [apply last_snoc |]. by split.
    + intros w r w2 _ _ _. right; left. split; [done |]. by exists w2.
    + intros w r w2 out _ _ _ H. exact H.
Qed.

(** *** [downloadQuizPdf] *)

(** C8: the download request carries only the Content-Type header, whatever
    is stored; when the transport fails or the answer is not 2xx the
    function logs the error with [console.error] and rejects with that same
    error; storage is never touched. *)
Theorem download_sends_no_token_and_rethrows title quizData w :
  let req := first_request (DownloadQuizPdf title quizData) (localStorage w) in
  let res := server (requests (log w)) req in
  headers req = [("Content-Type", "application/json")]
  /\ authorization req = None
  /\ exists c rest,
       downloadQuizPdf title quizData w
       = (c, World (localStorage w) (log w ++ EvFetch req res :: rest))
       /\ (res = FetchRejected ->
           c = Abrupt NetworkError
           /\ rest = [EvConsoleError "Download failed:" NetworkError])
       /\ (forall r, res = FetchResponse r -> ok r = false ->
             exists e, c = Abrupt e /\ rest = [EvConsoleError "Download failed:" e])
       /\ (forall r, res = FetchResponse r -> ok r = true ->
             c = Normal tt /\ rest = [EvSaveFile (title +:+ ".pdf") r]).
Proof.
  intros req res. split; [done |]. split; [done |].
  unfold downloadQuizPdf, try_catch, bind at 1, fetch.
  change (Request _ _ _ _) with req. fold res.
  destruct res as [| r] eqn:Hres.
  - unfold bind, emit, throw. simpl. rewrite <- app_assoc.
    eexists _, _. split; [reflexivity |].
    split; [done |]. split; intros; discriminate.
  - destruct (ok r) eqn:Hok; simpl.
    + unfold emit. simpl. rewrite <- app_assoc.
      eexists _, _. split; [reflexivity |].
      split; [discriminate |]. split.
      * intros r' [= <-] ?. congruence.
      * intros r' [= <-] _. done.
    + unfold json_or_empty, try_catch, res_json, throw_detail, bind, emit, throw.
      destruct (json_body r) as [[] |]; simpl; rewrite <- app_assoc;
        eexists _, _;
        (split; [reflexivity |]); (split; [discriminate |]);
        (split; [intros r' [= <-] _; eauto | intros r' [= <-] ?; congruence]).
Qed.

(** *** [verifyOTP] *)

Lemma get_prop_defined (data : json) (k : string) :
  data <> JNull -> exists v, get_prop data k = inr v.
Proof. destruct data; intros H; simpl; eauto. done. Qed.

Lemma bind_fetch {B} req (K : response -> M B) w :
  bind (fetch req) K w
  = match server (requests (log w)) req with
    | FetchRejected => (Abrupt NetworkError, after_fetch w req FetchRejected)
    | FetchResponse r => K r (after_fetch w req (FetchResponse r))
    end.
Proof.
  unfold bind, fetch. by destruct (server (requests (log w)) req).
Qed.

(** The two ways a call of [verifyOTP] can end. *)
Lemma verifyOTP_cases email otp w res :
  server (requests (log w)) (first_request (VerifyOTP email otp) (localStorage w)) = res ->
  let w1 := after_fetch w (first_request (VerifyOTP email otp) (localStorage w)) res in
  (exists e,
     verifyOTP email otp w = (Abrupt e, w1)
     /\ (res = FetchRejected
         \/ exists r, res = FetchResponse r
                      /\ (ok r = false \/ json_body r = None
                          \/ json_body r = Some JNull)))
  \/ (exists r data access refresh,
        res = FetchResponse r /\ ok r = true /\ json_body r = Some data
        /\ get_prop data "access_token" = inr access
        /\ get_prop data "refresh_token" = inr refresh
        /\ verifyOTP email otp w
           = (Normal data,
              World (<["refresh_token" := ToString refresh]>
                       (<["access_token" := ToString access]> (localStorage w)))
                    (log w1 ++ [EvSetItem "access_token" (ToString access);
                                EvSetItem "refresh_token" (ToString refresh)]))).
Proof.
  intros Hres w1. subst w1. unfold verifyOTP. rewrite bind_fetch.
  simpl in Hres. rewrite Hres. clear Hres.
  destruct res as [| r].
  { left. eauto. }
  destruct (ok r) eqn:Hok; simpl.
  2: { left. unfold res_json, throw_detail, bind.
       destruct (json_body r) as [[] |]; simpl; eauto 10. }
  unfold res_json. destruct (json_body r) as [data |] eqn:Hb.
  2: { left. unfold bind, throw. eauto 10. }
  assert (data = JNull \/ data <> JNull) as [-> | Hnn]
    by (destruct data; auto; right; discriminate).
  { left. unfold bind, throw. simpl. eauto 10. }
  destruct (get_prop_defined data "access_token" Hnn) as [access Ha].
  destruct (get_prop_defined data "refresh_token" Hnn) as [refresh Hr].
  right. exists r, data, access, refresh. repeat (split; [done |]).
  unfold bind, ret, setItem. simpl. rewrite Ha. simpl. rewrite Hr. simpl.
  rewrite <- !app_assoc. reflexivity.
Qed.

(** C4, as the code has it: on a 2xx answer whose body is a JSON value
    other than [null], [verifyOTP] stores the access token and then the
    refresh token and resolves with the parsed body; on a non-2xx answer,
    and on a 2xx answer whose body is not JSON or is [null], it rejects and
    performs no [setItem].  Whatever the backend does, a caller finds storage
    either as it was, with the call rejected, or with both tokens written,
    with the call resolved: never one token without the other. *)
Theorem verifyOTP_stores_both_tokens_or_none email otp w :
  let req := first_request (VerifyOTP email otp) (localStorage w) in
  let res := server (requests (log w)) req in
  let w1 := after_fetch w req res in
  (forall r data,
     res = FetchResponse r -> ok r = true -> json_body r = Some data ->
     data <> JNull ->
     exists access refresh,
       get_prop data "access_token" = inr access
       /\ get_prop data "refresh_token" = inr refresh
       /\ verifyOTP email otp w
          = (Normal data,
             World (<["refresh_token" := ToString refresh]>
                      (<["access_token" := ToString access]> (localStorage w)))
                   (log w1 ++ [EvSetItem "access_token" (ToString access);
                               EvSetItem "refresh_token" (ToString refresh)])))
  /\ (forall r,
        res = FetchResponse r -> ok r = false ->
        exists e, verifyOTP email otp w = (Abrupt e, w1))
  /\ (forall r,
        res = FetchResponse r -> ok r = true ->
        (json_body r = None -> verifyOTP email otp w = (Abrupt SyntaxError, w1))
        /\ (json_body r = Some JNull -> verifyOTP email otp w = (Abrupt TypeError, w1)))
  /\ (exists c w',
        verifyOTP email otp w = (c, w')
        /\ (((exists e, c = Abrupt e) /\ localStorage w' = localStorage w)
            \/ (exists data access refresh,
                  c = Normal data
                  /\ localStorage w'
                     = <["refresh_token" := refresh]>
                         (<["access_token" := access]> (localStorage w))))).
Proof.
  intros req res w1.
  assert (Hbad : forall r,
            res = FetchResponse r -> ok r = true ->
            (json_body r = None -> verifyOTP email otp w = (Abrupt SyntaxError, w1))
            /\ (json_body r = Some JNull
                -> verifyOTP email otp w = (Abrupt TypeError, w1))).
  { intros r Hres Hok. subst w1 res req. unfold first_request in *.
    unfold verifyOTP. rewrite bind_fetch, !Hres, Hok. simpl.
    unfold res_json, bind, throw, lift.
    split; intros ->; reflexivity. }
  destruct (verifyOTP_cases email otp w res eq_refl)
    as [(e & E & Hwhy) | (r & data & access & refresh & Hres & Hok & Hb & Ha & Hr & E)];
    fold req w1 in E.
  - split; [| split; [| split]].
    + intros r data Hres Hok Hb Hnn. exfalso.
      destruct Hwhy as [Hrej | (r' & Hr' & Hwrong)]; [congruence |].
      rewrite Hres in Hr'. injection Hr' as <-.
      destruct Hwrong as [? | [? | ?]]; congruence.
    + intros r _ _. eauto.
    + exact Hbad.
    + eexists _, _. split; [exact E |]. left. split; [eauto | done].
  - split; [| split; [| split]].
    + intros r' data' Hres' _ Hb' _. rewrite Hres in Hres'. injection Hres' as <-.
      rewrite Hb in Hb'. injection Hb' as <-. eauto.
    + intros r' Hres' Hok'. rewrite Hres in Hres'. injection Hres' as <-. congruence.
    + exact Hbad.
    + eexists _, _. split; [exact E |]. right. eauto.
Qed.

(** *** What can remove a token *)

Lemma keeps_keys_refl st : keeps_keys st st.
Proof. by intros k. Qed.

Lemma keeps_keys_trans st1 st2 st3 :
  keeps_keys st1 st2 -> keeps_keys st2 st3 -> keeps_keys st1 st3.
Proof. intros H12 H23 k Hk. auto. Qed.

Lemma keeps_keys_insert st k v : keeps_keys st (<[k := v]> st).
Proof.
  intros k' Hk. destruct (decide (k' = k)) as [-> |].
  - rewrite lookup_insert_eq. eauto.
  - by rewrite lookup_insert_ne.
Qed.

Lemma run_keeps_keys op fuel w :
  keeps_keys (localStorage w) (localStorage (run op fuel w).2)
  \/ exists w2, run op fuel w = (Abrupt session_expired, signed_out w2).
Proof.
  revert fuel w.
  apply (run_ind op (fun w out =>
    keeps_keys (localStorage w) (localStorage out.2)
    \/ exists w2, out = (Abrupt session_expired, signed_out w2))).
  - intros w. left. apply keeps_keys_refl.
  - intros w _. left. apply keeps_keys_refl.
  - intros w r _ _. left.
    destruct (settle_cases op r
                (after_fetch w (request_of op (localStorage w !! "access_token"))
                             (FetchResponse r))) as (c & -> & _).
    apply keeps_keys_refl.
  - intros w r w2 _ _ _. right. eauto.
  - intros w r w2 out _ _ E [Hk | Hout]; [left | by right].
    destruct (refresh_effect _ _ _ E) as (b & new & _ & _ & _ & _ & _ & Hkeep & _).
    eapply keeps_keys_trans; [exact Hkeep | exact Hk].
Qed.

Lemma verifyOTP_keeps_keys email otp w :
  keeps_keys (localStorage w) (localStorage (verifyOTP email otp w).2).
Proof.
  destruct (verifyOTP_cases email otp w _ eq_refl)
    as [(e & -> & _) | (r & data & access & refresh & _ & _ & _ & _ & _ & ->)].
  - apply keeps_keys_refl.
  - simpl. eapply keeps_keys_trans; apply keeps_keys_insert.
Qed.

Lemma unprotected_storage o fuel w :
  (forall op, o <> Protected op) ->
  keeps_keys (localStorage w) (localStorage (perform o fuel w).2).
Proof.
  intros Hnp. destruct o as [email phone fullName | phone email | email otp | op |
                             title quizData].
  - unfold perform, map_result, registerUser, bind at 1. rewrite bind_fetch.
    destruct (server _ _) as [| r]; [apply keeps_keys_refl |].
    unfold res_json, throw_detail, bind, ret, throw.
    destruct (ok r), (json_body r) as [[] |]; apply keeps_keys_refl.
  - unfold perform, map_result, sendOTP, bind at 1. rewrite bind_fetch.
    destruct (server _ _) as [| r]; [apply keeps_keys_refl |].
    unfold res_json, throw_detail, bind, ret, throw.
    destruct (ok r), (json_body r) as [[] |]; apply keeps_keys_refl.
  - unfold perform, map_result, bind.
    pose proof (verifyOTP_keeps_keys email otp w) as Hk.
    by destruct (verifyOTP email otp w) as [[] ?].
  - by destruct (Hnp op).
  - unfold perform, map_result, downloadQuizPdf, try_catch, bind at 1.
    rewrite bind_fetch.
    destruct (server _ _) as [| r]; [apply keeps_keys_refl |].
    unfold json_or_empty, try_catch, res_json, throw_detail, bind, ret, throw, emit.
    destruct (ok r), (json_body r) as [[] |]; apply keeps_keys_refl.
Qed.

(** C9: an operation whose request is answered with a status that is
    neither 2xx nor 401 rejects and leaves storage as it was;
    [refreshAccessToken] never throws and never removes a key, and when it
    returns [false] storage is unchanged; [verifyOTP] never removes a key; and
    the only run of an operation that loses a stored key is a protected one
    ending in the failed-refresh branch of [handleAuthError]. *)
Theorem tokens_removed_only_on_failed_refresh :
  (forall o fuel w r,
     server (requests (log w)) (first_request o (localStorage w)) = FetchResponse r ->
     ok r = false -> status r <> 401 ->
     exists e w',
       perform o (S fuel) w = (Abrupt e, w') /\ localStorage w' = localStorage w)
  /\ (forall w,
        exists b w',
          refreshAccessToken w = (Normal b, w')
          /\ keeps_keys (localStorage w) (localStorage w')
          /\ (b = false -> localStorage w' = localStorage w))
  /\ (forall email otp w,
        keeps_keys (localStorage w) (localStorage (verifyOTP email otp w).2))
  /\ (forall o fuel w,
        keeps_keys (localStorage w) (localStorage (perform o fuel w).2)
        \/ exists op w2,
             o = Protected op
             /\ perform o fuel w = (Abrupt session_expired, signed_out w2)).
Proof.
  split; [| split; [| split]].
  - intros o fuel w r Hres Hok Hs.
    destruct o as [email phone fullName | phone email | email otp | op |
                   title quizData]; simpl in Hres.
    + unfold perform, map_result, registerUser, bind at 1.
      rewrite bind_fetch, Hres, Hok. simpl.
      unfold res_json, throw_detail, bind, throw.
      destruct (json_body r) as [[] |]; simpl; eauto.
    + unfold perform, map_result, sendOTP, bind at 1.
      rewrite bind_fetch, Hres, Hok. simpl.
      unfold res_json, throw_detail, bind, throw.
      destruct (json_body r) as [[] |]; simpl; eauto.
    + unfold perform, map_result, verifyOTP, bind at 1.
      rewrite bind_fetch, Hres, Hok. simpl.
      unfold res_json, throw_detail, bind, throw.
      destruct (json_body r) as [[] |]; simpl; eauto.
    + unfold perform, map_result, bind.
      rewrite (run_settle op fuel w r Hres Hs).
      destruct (settle_cases op r
                  (after_fetch w (request_of op (localStorage w !! "access_token"))
                               (FetchResponse r))) as (c & -> & _ & Hrej).
      destruct (Hrej Hok) as [e ->]. eauto.
    + unfold perform, map_result, downloadQuizPdf, try_catch, bind at 1.
      rewrite bind_fetch, Hres, Hok. simpl.
      unfold json_or_empty, try_catch, res_json, throw_detail, bind, throw, emit.
      destruct (json_body r) as [[] |]; simpl; eauto.
  - intros w. destruct (refreshAccessToken w) as [c w'] eqn:E.
    destruct (refresh_effect _ _ _ E) as (b & new & -> & _ & _ & _ & _ & Hk & Hb & _).
    eauto.
  - intros email otp w. apply verifyOTP_keeps_keys.
  - intros o fuel w.
    destruct o as [email phone fullName | phone email | email otp | op |
                   title quizData];
      try (left; apply unprotected_storage; discriminate).
    unfold perform, map_result, bind.
    destruct (run_keeps_keys op fuel w) as [Hk | [w2 E]].
    + left. by destruct (run op fuel w) as [[] ?].
    + right. exists op, w2. split; [done |]. by rewrite E.
Qed.

(** A second 401, right after a refresh that the backend granted, is
    handled like the first: the refresh endpoint is asked again. *)
Lemma second_unauthorized_round op fuel w rt r1 r2 data access r3 :
  localStorage w !! "refresh_token" = Some rt ->
  rt <> "" ->
  first_response op w = FetchResponse r1 ->
  status r1 = 401 ->
  let w1 := after_fetch w (request_of op (localStorage w !! "access_token"))
                        (FetchResponse r1) in
  refresh_response w1 = FetchResponse r2 ->
  ok r2 = true ->
  json_body r2 = Some data ->
  get_prop data "access_token" = inr access ->
  let w2 := after_refresh w1 (FetchResponse r2) (ToString access) in
  first_response op w2 = FetchResponse r3 ->
  status r3 = 401 ->
  let w3 := after_fetch w2 (request_of op (Some (ToString access)))
                        (FetchResponse r3) in
  (exists rest,
     log (run op (S (S fuel)) w).2
     = (log w3 ++ EvFetch (refresh_request (Some rt)) (refresh_response w3) :: rest)%list)
  /\ run op (S (S fuel)) w
     = match refreshAccessToken w3 with
       | (Normal true, w4) => run op fuel w4
       | (_, w4) => (Abrupt session_expired, signed_out w4)
       end
  /\ (refresh_response w3 = FetchRejected
      \/ (exists r, refresh_response w3 = FetchResponse r
                    /\ (ok r = false \/ json_body r = None
                        \/ json_body r = Some JNull)) ->
      run op (S (S fuel)) w
      = (Abrupt session_expired,
         signed_out (after_fetch w3 (refresh_request (Some rt)) (refresh_response w3))))
  /\ (forall r4 data4 access4,
        refresh_response w3 = FetchResponse r4 ->
        ok r4 = true ->
        json_body r4 = Some data4 ->
        get_prop data4 "access_token" = inr access4 ->
        run op (S (S fuel)) w
        = run op fuel (after_refresh w3 (FetchResponse r4) (ToString access4))).
Proof.
  intros Hrt Hne Hf1 Hs1 w1 Hr2 Hok2 Hb2 Hp w2 Hf3 Hs3 w3.
  assert (Ht1 : truthy_item (localStorage w1 !! "refresh_token") = true).
  { simpl. rewrite Hrt. by apply truthy_item_nonempty. }
  assert (Hat : localStorage w2 !! "access_token" = Some (ToString access)).
  { simpl. apply lookup_insert_eq. }
  assert (Hrt3 : localStorage w3 !! "refresh_token" = Some rt).
  { simpl. rewrite lookup_insert_ne by done. exact Hrt. }
  assert (Hrun : run op (S (S fuel)) w
                 = match refreshAccessToken w3 with
                   | (Normal true, w4) => run op fuel w4
                   | (_, w4) => (Abrupt session_expired, signed_out w4)
                   end).
  { rewrite (run_unauthorized _ _ _ _ Hf1 Hs1). cbv zeta. fold w1.
    rewrite (refresh_success _ _ _ _ Ht1 Hr2 Hok2 Hb2 Hp). fold w2.
    rewrite (run_unauthorized _ _ _ _ Hf3 Hs3). cbv zeta. rewrite Hat. reflexivity. }
  assert (Ht3 : truthy_item (localStorage w3 !! "refresh_token") = true).
  { rewrite Hrt3. by apply truthy_item_nonempty. }
  split; [| split; [exact Hrun | split]].
  2: { intros Hfail. rewrite Hrun.
       destruct Hfail as [Hrej | (r & Hr & [Hbad | Hbad])].
       - rewrite (refresh_rejected _ Ht3 Hrej), Hrt3, Hrej. reflexivity.
       - rewrite (refresh_not_ok _ _ Ht3 Hr Hbad), Hrt3, Hr. reflexivity.
       - destruct (ok r) eqn:Hokr.
         + rewrite (refresh_bad_body _ _ Ht3 Hr Hokr Hbad), Hrt3, Hr. reflexivity.
         + rewrite (refresh_not_ok _ _ Ht3 Hr Hokr), Hrt3, Hr. reflexivity. }
  2: { intros r4 data4 access4 Hr4 Hok4 Hb4 Hp4. rewrite Hrun.
       rewrite (refresh_success _ _ _ _ Ht3 Hr4 Hok4 Hb4 Hp4). reflexivity. }
  rewrite Hrun.
  destruct (refresh_cases w3)
    as [[Ht E] | [[_ E] | [_ (r & data' & access' & Hr & _ & _ & _ & E)]]].
  - rewrite Hrt3, (truthy_item_nonempty _ Hne) in Ht. discriminate.
  - rewrite E. eexists [_; _; _]. unfold snd, signed_out, after_fetch at 1.
    cbn [log]. rewrite Hrt3. unfold after_fetch at 1. cbn [log].
    rewrite <- !app_assoc. reflexivity.
  - rewrite E.
    destruct (run_log_extends op fuel
                (after_refresh w3 (FetchResponse r) (ToString access')))
      as (new & Hlog).
    exists (EvSetItem "access_token" (ToString access') :: new).
    rewrite Hlog, Hr. unfold after_refresh at 1. cbn [log].
    rewrite Hrt3, <- !app_assoc. reflexivity.
Qed.

End Properties.

(** ** The theorems at concrete backends *)

(** C1 fails as stated: against a backend that answers 401, refreshes,
    answers 401 again, refreshes again and then serves the profile, one call
    of [getUserProfile] sends two refresh requests and resolves. *)
Lemma second_unauthorized_is_refreshed_again :
  let out := run (env := twice_unauthorized) GetUserProfile 3 signed_in in
  out.1 = Normal profile
  /\ count (is_refresh_attempt (env := twice_unauthorized)) (log out.2) = 2%nat
  /\ count (is_unauthorized (env := twice_unauthorized)) (log out.2) = 2%nat
  /\ ~ (count (is_refresh_attempt (env := twice_unauthorized)) (log out.2) <= 1)%nat
  /\ localStorage out.2 = tokens "A3" "R1".
Proof.
  vm_compute. repeat split. intros H. inversion H as [| ? H']. inversion H'.
Qed.

(** C5 fails as stated: once [verifyOTP] has stored the empty string as
    access token, a token is stored, and the profile request that follows
    carries the Content-Type header only. *)
Lemma empty_access_token_sends_no_header :
  let w1 := (verifyOTP (env := empty_access_token) "a@b.com" "123456" (World ∅ [])).2 in
  let out := run (env := empty_access_token) GetUserProfile 1 w1 in
  localStorage w1 !! "access_token" = Some ""
  /\ out.1 = Normal profile
  /\ requests (log out.2) !! 1%nat
     = Some (Request "http://localhost:8000/api/user/profile" "GET"
                     [("Content-Type", "application/json")] NoBody)
  /\ (authorization <$> requests (log out.2) !! 1%nat) = Some None.
Proof.
  vm_compute. repeat split.
Qed.

Lemma failed_refresh_signs_out_example :
  exists w2,
    run (env := refresh_refused) GetUserProfile 1 signed_in
    = (Abrupt session_expired, signed_out w2)
    /\ localStorage w2 = localStorage signed_in
    /\ localStorage (signed_out w2) !! "access_token" = None
    /\ localStorage (signed_out w2) !! "refresh_token" = None.
Proof.
  apply (failed_refresh_signs_out (env := refresh_refused) GetUserProfile 0 signed_in
           (Response 401 (Some (JObj [("detail", JStr "Token has expired")])))).
  - reflexivity.
  - reflexivity.
  - apply (refresh_non_2xx (env := refresh_refused) _
             (Response 400 (Some (JObj [("detail", JStr "Invalid refresh token")])))).
    + reflexivity.
    + reflexivity.
Defined.

Lemma refresh_without_token_example :
  let w := World {["access_token" := "A1"]} [] in
  localStorage w !! "refresh_token" = None
  /\ refreshAccessToken (env := once_unauthorized) w = (Normal false, w).
Proof.
  split.
  - reflexivity.
  - apply (refresh_without_token_sends_nothing (env := once_unauthorized)).
    reflexivity.
Defined.

(** C3 fails as stated: with the empty string stored as refresh token, a
    backend that answers the first request with 401, would grant a refresh,
    and would serve the retried request is never asked to refresh; the call
    rejects with the session-expired error after its one request.  And when
    the refresh endpoint grants the empty string as access token, the call
    resolves but the retried request carries no Authorization header. *)
Lemma empty_refresh_token_is_never_sent :
  let w := World (tokens "A1" "") [] in
  let w1 := after_fetch w (request_of (env := token_checking) GetUserProfile (Some "A1"))
                        unauthorized in
  let w2 := after_refresh (env := token_checking) w1 (refreshed "A2") "A2" in
  (localStorage w !! "refresh_token" = Some ""
   /\ first_response (env := token_checking) GetUserProfile w = unauthorized
   /\ refresh_response (env := token_checking) w1 = refreshed "A2"
   /\ first_response (env := token_checking) GetUserProfile w2 = answered 200 profile
   /\ run (env := token_checking) GetUserProfile 2 w
      = (Abrupt session_expired, signed_out w1)
   /\ requests (log (run (env := token_checking) GetUserProfile 2 w).2)
      = [request_of (env := token_checking) GetUserProfile (Some "A1")])
  /\ ((run (env := empty_refreshed_token) GetUserProfile 2 signed_in).1 = Normal profile
      /\ localStorage (run (env := empty_refreshed_token) GetUserProfile 2 signed_in).2
         !! "access_token" = Some ""
      /\ (authorization
            <$> requests (log (run (env := empty_refreshed_token)
                                 GetUserProfile 2 signed_in).2) !! 2%nat)
         = Some None).
Proof.
  vm_compute. repeat split.
Qed.

Lemma refresh_then_retry_example :
  let w1 := after_fetch signed_in
              (request_of (env := token_checking) GetUserProfile (Some "A1"))
              unauthorized in
  let w2 := after_refresh (env := token_checking) w1 (refreshed "A2") "A2" in
  let w3 := after_fetch w2 (request_of (env := token_checking) GetUserProfile (Some "A2"))
                        (answered 200 profile) in
  run (env := token_checking) GetUserProfile 2 signed_in = (Normal profile, w3)
  /\ log w3
     = ([] ++ [EvFetch (request_of (env := token_checking) GetUserProfile (Some "A1"))
                       unauthorized;
               EvFetch (refresh_request (env := token_checking) (Some "R1"))
                       (refreshed "A2");
               EvSetItem "access_token" "A2";
               EvFetch (request_of (env := token_checking) GetUserProfile (Some "A2"))
                       (answered 200 profile)])%list
  /\ localStorage w3 = <["access_token" := "A2"]> (tokens "A1" "R1")
  /\ localStorage w3 !! "refresh_token" = Some "R1"
  /\ authorization (request_of (env := token_checking) GetUserProfile (Some "A2"))
     = Some "Bearer A2".
Proof.
  apply (refresh_then_retry_resolves (env := token_checking)
           GetUserProfile 0 signed_in "R1"
           (Response 401 (Some (JObj [("detail", JStr "Token has expired")])))
           (Response 200 (Some (JObj [("access_token", JStr "A2")])))
           (JObj [("access_token", JStr "A2")]) (Some (JStr "A2"))
           (Response 200 (Some profile)) profile).
  - reflexivity.
  - discriminate.
  - reflexivity.
  - reflexivity.
  - reflexivity.
  - reflexivity.
  - reflexivity.
  - reflexivity.
  - reflexivity.
  - reflexivity.
  - reflexivity.
Defined.

(** C4 fails as stated: a 2xx answer whose body is [null], or is not JSON,
    makes [verifyOTP] reject, with a TypeError or a SyntaxError, and nothing
    is stored. *)
Lemma verifyOTP_rejects_malformed_success :
  (ok (Response 200 (Some JNull)) = true
   /\ (verifyOTP (env := otp_answered_with_null) "a@b.com" "123456" (World ∅ [])).1
      = Abrupt TypeError
   /\ localStorage
        (verifyOTP (env := otp_answered_with_null) "a@b.com" "123456" (World ∅ [])).2
      = ∅)
  /\ (ok (Response 200 None) = true
      /\ (verifyOTP (env := otp_answered_without_json) "a@b.com" "123456" (World ∅ [])).1
         = Abrupt SyntaxError
      /\ localStorage
           (verifyOTP (env := otp_answered_without_json) "a@b.com" "123456" (World ∅ [])).2
         = ∅).
Proof.
  vm_compute. repeat split.
Qed.

Lemma verifyOTP_example :
  exists w',
    verifyOTP (env := otp_accepted) "a@b.com" "123456" (World ∅ [])
    = (Normal (JObj [("access_token", JStr "A1"); ("refresh_token", JStr "R1");
                     ("user", profile)]), w')
    /\ localStorage w' = tokens "A1" "R1".
Proof.
  destruct (proj1 (verifyOTP_stores_both_tokens_or_none (env := otp_accepted)
                     "a@b.com" "123456" (World ∅ []))
              (Response 200 (Some (JObj [("access_token", JStr "A1");
                                         ("refresh_token", JStr "R1");
                                         ("user", profile)])))
              (JObj [("access_token", JStr "A1"); ("refresh_token", JStr "R1");
                     ("user", profile)]))
    as (access & refresh & Ha & Hr & E).
  - reflexivity.
  - reflexivity.
  - reflexivity.
  - discriminate.
  - injection Ha as <-. injection Hr as <-.
    eexists. split; [exact E | reflexivity].
Defined.

Lemma download_failure_example :
  exists e,
    downloadQuizPdf (env := server_error) "AI_Study_Quiz" (JArr []) signed_in
    = (Abrupt e,
       World (tokens "A1" "R1")
             [EvFetch (first_request (env := server_error)
                         (DownloadQuizPdf "AI_Study_Quiz" (JArr [])) (tokens "A1" "R1"))
                      (answered 500 (JObj [("detail", JStr "Internal Server Error")]));
              EvConsoleError "Download failed:" e]).
Proof.
  destruct (download_sends_no_token_and_rethrows (env := server_error)
              "AI_Study_Quiz" (JArr []) signed_in)
    as (_ & _ & c & rest & E & _ & Hfail & _).
  destruct (Hfail (Response 500 (Some (JObj [("detail", JStr "Internal Server Error")])))
              eq_refl eq_refl) as (e & -> & ->).
  exists e. exact E.
Defined.

Lemma server_error_example :
  exists e w',
    perform (env := server_error) (Protected (SummarizeText "notes")) 1 signed_in
    = (Abrupt e, w')
    /\ localStorage w' = tokens "A1" "R1".
Proof.
  apply (proj1 (tokens_removed_only_on_failed_refresh (env := server_error))
           (Protected (SummarizeText "notes")) 0%nat signed_in
           (Response 500 (Some (JObj [("detail", JStr "Internal Server Error")])))).
  - reflexivity.
  - reflexivity.
  - discriminate.
Defined.

Lemma unauthorized_round_example :
  let w1 := after_fetch signed_in
              (request_of (env := refresh_refused) GetUserProfile (Some "A1"))
              unauthorized in
  (exists w2,
     refreshAccessToken (env := refresh_refused) w1 = (Normal false, w2)
     /\ run (env := refresh_refused) GetUserProfile 1 signed_in
        = (Abrupt session_expired, signed_out w2))
  \/ (exists w2,
        refreshAccessToken (env := refresh_refused) w1 = (Normal true, w2)
        /\ run (env := refresh_refused) GetUserProfile 1 signed_in
           = run (env := refresh_refused) GetUserProfile 0 w2).
Proof.
  apply (proj1 (unauthorized_response_is_never_settled (env := refresh_refused)
                  GetUserProfile)
           0%nat signed_in
           (Response 401 (Some (JObj [("detail", JStr "Token has expired")])))).
  - reflexivity.
  - reflexivity.
Defined.

(** Nothing in the client bounds the retries: against a backend that keeps
    answering 401 to the operation and keeps granting refreshes, a run with
    [n] rounds of fuel has sent [n] refresh requests and is still not
    finished. *)
Lemma stubborn_backend_never_finishes op n :
  forall w,
    Nat.even (length (requests (log w))) = true ->
    truthy_item (localStorage w !! "refresh_token") = true ->
    exists w',
      run (env := stubborn) op n w = (Unfinished, w')
      /\ count (is_refresh_attempt (env := stubborn)) (log w')
         = (count (is_refresh_attempt (env := stubborn)) (log w) + n)%nat.
Proof.
  induction n as [| n IH]; intros w Heven Ht.
  - exists w. split; [| lia]. rewrite run_protected_call. reflexivity.
  - set (r := Response 401 (Some (JObj [("detail", JStr "Token has expired")]))).
    assert (Hf : first_response (env := stubborn) op w = FetchResponse r).
    { unfold first_response. simpl. by rewrite Heven. }
    rewrite (run_unauthorized op n w r Hf eq_refl). cbv zeta.
    set (w1 := after_fetch _ _ _).
    assert (Hlen : length (requests (log w1)) = S (length (requests (log w)))).
    { unfold w1, requests. simpl. rewrite omap_app, length_app. simpl. lia. }
    assert (Hr : refresh_response (env := stubborn) w1 = refreshed "fresh").
    { unfold refresh_response.
      change (server (requests (log w1)) ?q)
        with (if Nat.even (length (requests (log w1)))
              then unauthorized else refreshed "fresh").
      rewrite Hlen, Nat.even_succ, <- Nat.negb_even, Heven. reflexivity. }
    rewrite (refresh_success (env := stubborn) w1 _ _ (Some (JStr "fresh"))
               Ht Hr eq_refl eq_refl eq_refl).
    set (w2 := after_refresh _ _ _).
    destruct (IH w2) as (w' & E & Hcount).
    { unfold w2, requests. simpl. rewrite !omap_app, !length_app. simpl.
      fold (requests (log w)).
      replace (length (requests (log w)) + 1 + 1)%nat
        with (S (S (length (requests (log w))))) by lia.
      exact Heven. }
    { unfold w2. simpl. by rewrite lookup_insert_ne. }
    exists w'. split; [exact E |]. rewrite Hcount. unfold w2. simpl.
    rewrite <- app_assoc. simpl.
    rewrite count_app, !count_cons, refresh_attempt_operation, refresh_attempt_request.
    simpl. change (count is_refresh_attempt []) with 0%nat. lia.
Qed.

Corollary no_bound_on_refresh_attempts n :
  exists w',
    run (env := stubborn) GetUserProfile n signed_in = (Unfinished, w')
    /\ count (is_refresh_attempt (env := stubborn)) (log w') = n.
Proof.
  destruct (stubborn_backend_never_finishes GetUserProfile n signed_in)
    as (w' & E & Hcount); [reflexivity | reflexivity |].
  exists w'. split; [exact E |]. rewrite Hcount. reflexivity.
Qed.

(** C1, as the code has it.  In every run of a protected operation the
    refresh requests are as many as the 401 responses to the operation's own
    requests while a non-empty refresh token is stored, and none otherwise.
    The retry after a granted refresh is a new call of the operation: with a
    non-empty refresh token stored, a first 401, a refresh answered 2xx with
    a JSON body other than [null] and a retried request again answered 401,
    a second refresh request is sent; the run ends with the session-expired
    error if that refresh fails (transport failure, non-2xx, or a body that
    is not JSON or is [null]) and goes on as the operation called anew in
    the refreshed world when it is granted.  Nothing bounds the
    refresh attempts of one call: against a backend that answers every
    request of the operation with 401 and grants every refresh, a run of [n]
    rounds has sent [n] refresh requests and has not finished. *)
Theorem refresh_follows_every_unauthorized_response :
  (forall (env : Env) op fuel w,
     exists new,
       log (run op fuel w).2 = (log w ++ new)%list
       /\ count is_refresh_attempt new
          = if truthy_item (localStorage w !! "refresh_token")
            then count is_unauthorized new
            else 0%nat)
  /\ (forall (env : Env) op fuel w rt r1 r2 data access r3,
        localStorage w !! "refresh_token" = Some rt ->
        rt <> "" ->
        first_response op w = FetchResponse r1 ->
        status r1 = 401 ->
        let w1 := after_fetch w (request_of op (localStorage w !! "access_token"))
                              (FetchResponse r1) in
        refresh_response w1 = FetchResponse r2 ->
        ok r2 = true ->
        json_body r2 = Some data ->
        get_prop data "access_token" = inr access ->
        let w2 := after_refresh w1 (FetchResponse r2) (ToString access) in
        first_response op w2 = FetchResponse r3 ->
        status r3 = 401 ->
        let w3 := after_fetch w2 (request_of op (Some (ToString access)))
                              (FetchResponse r3) in
        (exists rest,
           log (run op (S (S fuel)) w).2
           = (log w3 ++ EvFetch (refresh_request (Some rt)) (refresh_response w3)
                :: rest)%list)
        /\ run op (S (S fuel)) w
           = match refreshAccessToken w3 with
             | (Normal true, w4) => run op fuel w4
             | (_, w4) => (Abrupt session_expired, signed_out w4)
             end
        /\ (refresh_response w3 = FetchRejected
            \/ (exists r, refresh_response w3 = FetchResponse r
                          /\ (ok r = false \/ json_body r = None
                              \/ json_body r = Some JNull)) ->
            run op (S (S fuel)) w
            = (Abrupt session_expired,
               signed_out (after_fetch w3 (refresh_request (Some rt))
                             (refresh_response w3))))
        /\ (forall r4 data4 access4,
              refresh_response w3 = FetchResponse r4 ->
              ok r4 = true ->
              json_body r4 = Some data4 ->
              get_prop data4 "access_token" = inr access4 ->
              run op (S (S fuel)) w
              = run op fuel (after_refresh w3 (FetchResponse r4) (ToString access4))))
  /\ (forall op n,
        exists w',
          run (env := stubborn) op n signed_in = (Unfinished, w')
          /\ count (is_refresh_attempt (env := stubborn)) (log w') = n).
Proof.
  split; [| split].
  - intros env op fuel w. apply refresh_attempts_follow_unauthorized_responses.
  - intros env op fuel w rt r1 r2 data access r3. apply second_unauthorized_round.
  - intros op n.
    destruct (stubborn_backend_never_finishes op n signed_in)
      as (w' & E & Hcount); [reflexivity | reflexivity |].
    exists w'. split; [exact E |]. rewrite Hcount. reflexivity.
Qed.

Lemma second_refresh_example :
  exists rest,
    log (run (env := twice_unauthorized) GetUserProfile 2 signed_in).2
    = ([EvFetch (request_of (env := twice_unauthorized) GetUserProfile (Some "A1"))
                unauthorized;
        EvFetch (refresh_request (env := twice_unauthorized) (Some "R1")) (refreshed "A2");
        EvSetItem "access_token" "A2";
        EvFetch (request_of (env := twice_unauthorized) GetUserProfile (Some "A2"))
                unauthorized]
       ++ EvFetch (refresh_request (env := twice_unauthorized) (Some "R1"))
                  (refreshed "A3") :: rest)%list.
Proof.
  apply (proj1 (proj1 (proj2 refresh_follows_every_unauthorized_response)
                  twice_unauthorized GetUserProfile 0%nat signed_in "R1"
                  (Response 401 (Some (JObj [("detail", JStr "Token has expired")])))
                  (Response 200 (Some (JObj [("access_token", JStr "A2")])))
                  (JObj [("access_token", JStr "A2")]) (Some (JStr "A2"))
                  (Response 401 (Some (JObj [("detail", JStr "Token has expired")])))
                  eq_refl ltac:(discriminate) eq_refl eq_refl eq_refl eq_refl eq_refl
                  eq_refl eq_refl eq_refl)).
Defined.

(** ** Further properties of [api.js] *)

Section MoreApi.

Context {env : Env}.

Implicit Types (w : world) (op : protected_op) (o : operation) (fuel : nat)
  (r : response).

(** *** The error a failed call carries *)

(** A protected operation answered with a status that is neither 2xx nor
    401, whose JSON body is an object with a non-empty string [detail],
    rejects with exactly that string as message. *)
Theorem protected_error_carries_detail op fuel w r fields s :
  first_response op w = FetchResponse r ->
  ok r = false ->
  status r <> 401 ->
  json_body r = Some (JObj fields) ->
  assoc "detail" fields = Some (JStr s) ->
  s <> "" ->
  run op (S fuel) w
  = (Abrupt (Error s),
     after_fetch w (request_of op (localStorage w !! "access_token")) (FetchResponse r)).
Proof.
  intros Hf Hok Hs Hb Hd Hne. rewrite (run_settle _ _ _ _ Hf Hs).
  unfold settle, json_or_empty, try_catch, res_json, throw_detail, bind.
  rewrite Hok, Hb. simpl. rewrite Hd. simpl. unfold or_else. simpl.
  by rewrite bool_decide_eq_false_2.
Qed.

(** When the body of such an answer is not JSON, or is a JSON value other
    than [null] whose [detail] is missing or falsy, the message is the
    operation's own fallback text. *)
Theorem protected_error_falls_back op fuel w r :
  first_response op w = FetchResponse r ->
  ok r = false ->
  status r <> 401 ->
  (json_body r = None
   \/ exists j d, json_body r = Some j /\ get_prop j "detail" = inr d
                  /\ truthy d = false) ->
  run op (S fuel) w
  = (Abrupt (Error (fallback op r)),
     after_fetch w (request_of op (localStorage w !! "access_token")) (FetchResponse r)).
Proof.
  intros Hf Hok Hs Hb. rewrite (run_settle _ _ _ _ Hf Hs).
  unfold settle, json_or_empty, try_catch, res_json, throw_detail, bind.
  rewrite Hok. destruct Hb as [-> | (j & d & -> & Hd & Ht)]; simpl.
  - reflexivity.
  - rewrite Hd. simpl. unfold or_else. by rewrite Ht.
Qed.

(** [registerUser], [sendOTP] and [verifyOTP] read the error body without
    a [catch]: a non-2xx answer whose body is not JSON makes them reject
    with the parser's SyntaxError, not with their fallback message. *)
Theorem unguarded_error_body_is_a_syntax_error o fuel w r :
  (forall op, o <> Protected op) ->
  (forall title quizData, o <> DownloadQuizPdf title quizData) ->
  server (requests (log w)) (first_request o (localStorage w)) = FetchResponse r ->
  ok r = false ->
  json_body r = None ->
  perform o fuel w
  = (Abrupt SyntaxError, after_fetch w (first_request o (localStorage w)) (FetchResponse r)).
Proof.
  intros Hnp Hnd Hres Hok Hb.
  destruct o as [email phone fullName | phone email | email otp | op |
                 title quizData]; simpl in Hres.
  - unfold perform, map_result, registerUser, bind at 1.
    rewrite bind_fetch, Hres, Hok. simpl. unfold res_json, bind. by rewrite Hb.
  - unfold perform, map_result, sendOTP, bind at 1.
    rewrite bind_fetch, Hres, Hok. simpl. unfold res_json, bind. by rewrite Hb.
  - unfold perform, map_result, verifyOTP, bind at 1.
    rewrite bind_fetch, Hres, Hok. simpl. unfold res_json, bind. by rewrite Hb.
  - by destruct (Hnp op).
  - by destruct (Hnd title quizData).
Qed.

(** An error body that is the JSON value [null] makes every operation
    reject with a TypeError: reading [detail] of [null] throws before any
    message is chosen. *)
Theorem null_error_body_is_a_type_error o fuel w r :
  server (requests (log w)) (first_request o (localStorage w)) = FetchResponse r ->
  ok r = false ->
  status r <> 401 ->
  json_body r = Some JNull ->
  exists w', perform o (S fuel) w = (Abrupt TypeError, w')
             /\ localStorage w' = localStorage w.
Proof.
  intros Hres Hok Hs Hb.
  destruct o as [email phone fullName | phone email | email otp | op |
                 title quizData]; simpl in Hres.
  - unfold perform, map_result, registerUser, bind at 1.
    rewrite bind_fetch, Hres, Hok. simpl. unfold res_json, throw_detail, bind.
    rewrite Hb. simpl. eauto.
  - unfold perform, map_result, sendOTP, bind at 1.
    rewrite bind_fetch, Hres, Hok. simpl. unfold res_json, throw_detail, bind.
    rewrite Hb. simpl. eauto.
  - unfold perform, map_result, verifyOTP, bind at 1.
    rewrite bind_fetch, Hres, Hok. simpl. unfold res_json, throw_detail, bind.
    rewrite Hb. simpl. eauto.
  - unfold perform, map_result, bind.
    rewrite (run_settle op fuel w r Hres Hs).
    unfold settle, json_or_empty, try_catch, res_json, throw_detail, bind.
    rewrite Hok, Hb. simpl. eauto.
  - unfold perform, map_result, downloadQuizPdf, try_catch, bind at 1.
    rewrite bind_fetch, Hres, Hok. simpl.
    unfold json_or_empty, try_catch, res_json, throw_detail, bind, throw, emit.
    rewrite Hb. simpl. eauto.
Qed.

(** A 2xx first answer ends a protected operation after that one request:
    it resolves with the parsed body, or rejects with a SyntaxError when the
    body is not JSON; storage is not touched. *)
Theorem protected_success_is_one_request op fuel w r :
  first_response op w = FetchResponse r ->
  ok r = true ->
  run op (S fuel) w
  = (match json_body r with
     | Some j => Normal j
     | None => Abrupt SyntaxError
     end,
     after_fetch w (request_of op (localStorage w !! "access_token")) (FetchResponse r)).
Proof.
  intros Hf Hok.
  assert (Hs : status r <> 401).
  { intros Hs. unfold ok in Hok. rewrite Hs in Hok. discriminate. }
  rewrite (run_settle _ _ _ _ Hf Hs). unfold settle, res_json. rewrite Hok. simpl.
  by destruct (json_body r).
Qed.

(** *** How the operations compose *)

Lemma requests_app (l1 l2 : list event) :
  requests (l1 ++ l2) = (requests l1 ++ requests l2)%list.
Proof. apply omap_app. Qed.

(** The access token that [verifyOTP] stored is the one the next protected
    operation sends: when the resolved body carries a non-empty string as
    [access_token], the first request of a protected operation started
    afterwards has the header [Authorization: Bearer <that string>]. *)
Theorem token_stored_by_verifyOTP_is_sent email otp w data w' a op fuel :
  verifyOTP email otp w = (Normal data, w') ->
  get_prop data "access_token" = inr (Some (JStr a)) ->
  a <> "" ->
  exists req res rest,
    log (run op (S fuel) w').2 = (log w' ++ EvFetch req res :: rest)%list
    /\ authorization req = Some ("Bearer " +:+ a).
Proof.
  intros E Ha Hne.
  destruct (verifyOTP_cases email otp w _ eq_refl)
    as [(e & E' & _) | (r & data' & access & refresh & _ & _ & _ & Ha' & _ & E')];
    rewrite E' in E; [discriminate |].
  injection E as <- <-. rewrite Ha in Ha'. injection Ha' as <-.
  destruct (run_first_event op fuel
              (World (<["refresh_token" := ToString refresh]>
                        (<["access_token" := ToString (Some (JStr a))]> (localStorage w)))
                     (log (after_fetch w (first_request (VerifyOTP email otp) (localStorage w))
                             (server (requests (log w))
                                (first_request (VerifyOTP email otp) (localStorage w))))
                      ++ [EvSetItem "access_token" (ToString (Some (JStr a)));
                          EvSetItem "refresh_token" (ToString refresh)])))
    as (rest & Hlog).
  eexists _, _, rest. split; [exact Hlog |].
  rewrite authorization_request_of. simpl localStorage.
  rewrite lookup_insert_ne by done. rewrite lookup_insert_eq. simpl ToString.
  by rewrite truthy_item_nonempty.
Qed.

(** After [logout] a protected operation sends no Authorization header,
    and a 401 answer ends it at once with the session-expired error: no
    refresh request is sent, the one request of the operation is the only
    one. *)
Theorem call_after_logout_is_anonymous op fuel w r :
  let w0 := (logout w).2 in
  let req := request_of op (localStorage w0 !! "access_token") in
  first_response op w0 = FetchResponse r ->
  status r = 401 ->
  authorization req = None
  /\ run op (S fuel) w0
     = (Abrupt session_expired, signed_out (after_fetch w0 req (FetchResponse r)))
  /\ requests (log (run op (S fuel) w0).2) = (requests (log w0) ++ [req])%list.
Proof.
  intros w0 req Hf Hs.
  assert (Hat : localStorage w0 !! "access_token" = None).
  { simpl. rewrite lookup_delete_ne by done. apply lookup_delete_eq. }
  assert (Hrt : localStorage w0 !! "refresh_token" = None).
  { simpl. apply lookup_delete_eq. }
  assert (Hrun : run op (S fuel) w0
                 = (Abrupt session_expired,
                    signed_out (after_fetch w0 req (FetchResponse r)))).
  { rewrite (run_unauthorized _ _ _ _ Hf Hs). cbv zeta. fold req.
    rewrite refresh_no_token; [reflexivity |].
    change (localStorage (after_fetch w0 req (FetchResponse r))) with (localStorage w0).
    by rewrite Hrt. }
  split; [| split].
  - subst req. rewrite authorization_request_of, Hat. reflexivity.
  - exact Hrun.
  - rewrite Hrun. unfold snd, signed_out, after_fetch. simpl log.
    rewrite !requests_app. simpl. by rewrite app_nil_r.
Qed.

(** The refresh token is never rewritten by a protected operation: every
    [setItem] of a run has the key [access_token], and at the end the
    refresh token is what it was, unless the run ended in the failed-refresh
    branch, which removes it. *)
Theorem protected_run_writes_access_token_only op fuel w :
  exists new,
    log (run op fuel w).2 = (log w ++ new)%list
    /\ (forall k v, In (EvSetItem k v) new -> k = "access_token")
    /\ (localStorage (run op fuel w).2 !! "refresh_token"
        = localStorage w !! "refresh_token"
        \/ exists w2, run op fuel w = (Abrupt session_expired, signed_out w2)).
Proof.
  revert fuel w.
  apply (run_ind op (fun w out =>
    exists new,
      log out.2 = (log w ++ new)%list
      /\ (forall k v, In (EvSetItem k v) new -> k = "access_token")
      /\ (localStorage out.2 !! "refresh_token" = localStorage w !! "refresh_token"
          \/ exists w2, out = (Abrupt session_expired, signed_out w2)))).
  - intros w. exists []. rewrite app_nil_r. split; [done |]. split; [| by left].
    intros k v [].
  - intros w _. eexists [_]. split; [reflexivity |]. split; [| by left].
    intros k v [H | []]. discriminate.
  - intros w r _ _.
    destruct (settle_cases op r
                (after_fetch w (request_of op (localStorage w !! "access_token"))
                             (FetchResponse r))) as (c & -> & _).
    eexists [_]. split; [reflexivity |]. split; [| by left].
    intros k v [H | []]. discriminate.
  - intros w r w2 _ _ E. set (w1 := after_fetch _ _ _) in E.
    destruct (refresh_cases w1)
      as [[_ E'] | [[_ E'] | [_ (r' & data & access & _ & _ & _ & _ & E')]]];
      rewrite E' in E; try discriminate; injection E as <-.
    + eexists [_; _; _; _]. split; [simpl; rewrite <- !app_assoc; reflexivity |].
      split; [| right; eauto].
      intros k v [H | [H | [H | [H | []]]]]; discriminate.
    + eexists [_; _; _; _; _]. split; [simpl; rewrite <- !app_assoc; reflexivity |].
      split; [| right; eauto].
      intros k v [H | [H | [H | [H | [H | []]]]]]; discriminate.
  - intros w r w2 out _ _ E (new' & Hlog' & Hset' & Hrt').
    set (w1 := after_fetch _ _ _) in E.
    destruct (refresh_cases w1)
      as [[_ E'] | [[_ E'] | [_ (r' & data & access & _ & _ & _ & _ & E')]]];
      rewrite E' in E; try discriminate; injection E as <-.
    eexists (_ :: _ :: _ :: new')%list. split.
    { rewrite Hlog'. simpl. rewrite <- !app_assoc. reflexivity. }
    split.
    + intros k v [H | [H | [H | H]]]; try discriminate.
      * by injection H as <- _.
      * by apply (Hset' k v).
    + destruct Hrt' as [Hrt' | Hout]; [left | by right].
      rewrite Hrt'. simpl. by rewrite lookup_insert_ne.
Qed.

(** A 2xx refresh answer whose JSON object has no [access_token] still
    counts as a success: [refreshAccessToken] returns [true] and stores the
    text "undefined", which the retried request then sends as bearer
    token. *)
Theorem refresh_without_access_token_stores_undefined op w r fields :
  truthy_item (localStorage w !! "refresh_token") = true ->
  refresh_response w = FetchResponse r ->
  ok r = true ->
  json_body r = Some (JObj fields) ->
  assoc "access_token" fields = None ->
  exists w2,
    refreshAccessToken w = (Normal true, w2)
    /\ localStorage w2 !! "access_token" = Some "undefined"
    /\ authorization (request_of op (localStorage w2 !! "access_token"))
       = Some "Bearer undefined".
Proof.
  intros Ht Hr Hok Hb Hnone.
  assert (Hp : get_prop (JObj fields) "access_token" = inr None)
    by (simpl; by rewrite Hnone).
  rewrite (refresh_success w r _ _ Ht Hr Hok Hb Hp).
  eexists. split; [reflexivity |]. simpl.
  rewrite lookup_insert_eq. split; [done |].
  by rewrite authorization_request_of.
Qed.

(** [verifyOTP] does not check what it stores: a 2xx answer whose body is
    JSON but not an object (and not [null]) resolves and leaves the text
    "undefined" under both keys. *)
Theorem verifyOTP_stores_undefined_for_non_objects email otp w r data :
  server (requests (log w)) (first_request (VerifyOTP email otp) (localStorage w))
  = FetchResponse r ->
  ok r = true ->
  json_body r = Some data ->
  data <> JNull ->
  (forall fields, data <> JObj fields) ->
  exists w',
    verifyOTP email otp w = (Normal data, w')
    /\ localStorage w' !! "access_token" = Some "undefined"
    /\ localStorage w' !! "refresh_token" = Some "undefined".
Proof.
  intros Hres Hok Hb Hnn Hno.
  destruct (verifyOTP_cases email otp w _ Hres)
    as [(e & _ & [? | (r' & [= <-] & [? | [? | ?]])])
       | (r' & data' & access & refresh & [= <-] & _ & Hb' & Ha & Hr & E)];
    try congruence.
  rewrite Hb in Hb'. injection Hb' as <-.
  assert (access = None /\ refresh = None) as [-> ->].
  { destruct data as [| | | | | fields]; try done; try (by destruct (Hno fields));
      simpl in Ha, Hr; unfold undefined in *; split; congruence. }
  eexists. split; [exact E |]. simpl. split.
  - rewrite lookup_insert_ne by done. apply lookup_insert_eq.
  - apply lookup_insert_eq.
Qed.

(** [registerUser], [sendOTP], [verifyOTP] and [downloadQuizPdf] send
    exactly one request per call, whatever the answer: they never retry and
    never call the refresh endpoint, a 401 included. *)
Theorem unprotected_operations_send_one_request o fuel w :
  (forall op, o <> Protected op) ->
  requests (log (perform o fuel w).2)
  = (requests (log w) ++ [first_request o (localStorage w)])%list.
Proof.
  intros Hnp.
  destruct o as [email phone fullName | phone email | email otp | op |
                 title quizData].
  - unfold perform, map_result, registerUser, bind at 1. rewrite bind_fetch.
    destruct (server _ _) as [| r] eqn:Hres;
      [simpl; by rewrite requests_app |].
    unfold res_json, throw_detail, bind, ret, throw.
    destruct (ok r), (json_body r) as [[] |]; simpl; by rewrite requests_app.
  - unfold perform, map_result, sendOTP, bind at 1. rewrite bind_fetch.
    destruct (server _ _) as [| r] eqn:Hres;
      [simpl; by rewrite requests_app |].
    unfold res_json, throw_detail, bind, ret, throw.
    destruct (ok r), (json_body r) as [[] |]; simpl; by rewrite requests_app.
  - unfold perform, map_result, bind.
    destruct (verifyOTP_cases email otp w _ eq_refl)
      as [(e & -> & _) | (r & data & access & refresh & _ & _ & _ & _ & _ & ->)];
      simpl; rewrite !requests_app; simpl; by rewrite ?app_nil_r.
  - by destruct (Hnp op).
  - unfold perform, map_result, downloadQuizPdf, try_catch, bind at 1.
    rewrite bind_fetch.
    destruct (server _ _) as [| r] eqn:Hres.
    { unfold bind, emit, throw. simpl. rewrite !requests_app. simpl.
      by rewrite app_nil_r. }
    unfold json_or_empty, try_catch, res_json, throw_detail, bind, ret, throw, emit.
    destruct (ok r), (json_body r) as [[] |]; simpl;
      rewrite !requests_app; simpl; by rewrite app_nil_r.
Qed.

(** *** Fuel *)

(** Adequacy of the fuel of this embedding: the outcome of a finished run
    does not depend on it. *)
Lemma finished_run_is_stable op n :
  forall m w c w',
    run op n w = (c, w') -> c <> Unfinished -> (n <= m)%nat ->
    run op m w = (c, w').
Proof.
  induction n as [| n IH]; intros m w c w' E Hfin Hle.
  - rewrite run_protected_call in E. injection E as <- _. done.
  - destruct m as [| m]; [lia |].
    destruct (first_response op w) as [| r] eqn:Hf.
    + rewrite (run_rejected _ _ _ Hf) in E. by rewrite (run_rejected _ _ _ Hf).
    + destruct (decide (status r = 401)) as [Hs | Hs].
      * rewrite (run_unauthorized _ _ _ _ Hf Hs) in E.
        rewrite (run_unauthorized _ _ _ _ Hf Hs). cbv zeta in E |- *.
        destruct (refreshAccessToken _) as [[[|] | |] w2]; try exact E.
        apply IH; [exact E | exact Hfin | lia].
      * rewrite (run_settle _ _ _ _ Hf Hs) in E. by rewrite (run_settle _ _ _ _ Hf Hs).
Qed.

End MoreApi.

(** ** Properties of the components *)

Section QuizPlaygroundFacts.

Variable questions : list json.

Local Abbreviation size_of_quiz := (QuizPlayground.size_of_quiz questions).

Lemma quiz_dispatch_in_range st a :
  questions <> [] ->
  QuizPlayground.in_range questions st ->
  QuizPlayground.in_range questions (QuizPlayground.dispatch questions st a).
Proof.
  intros Hne [Hidx Hans].
  assert (Hpos : 0 < size_of_quiz).
  { unfold QuizPlayground.size_of_quiz. destruct questions; [done | simpl; lia]. }
  destruct a; simpl.
  - split; [exact Hidx |]. simpl. intros i Hi.
    destruct (decide (QuizPlayground.currentIndex st = i)) as [<- | Hneq].
    + exact Hidx.
    + rewrite lookup_insert_ne in Hi by done. by apply Hans.
  - unfold QuizPlayground.handleNext.
    destruct (Z.ltb_spec (QuizPlayground.currentIndex st) (size_of_quiz - 1));
      [| by split].
    split; [simpl; lia | exact Hans].
  - unfold QuizPlayground.handlePrev.
    destruct (Z.gtb_spec (QuizPlayground.currentIndex st) 0); [| by split].
    split; [simpl; lia | exact Hans].
  - unfold QuizPlayground.handleSubmit.
    destruct (QuizPlayground.count_correct _ _ _ _); by split.
  - split; [simpl; lia |]. simpl. intros i [x Hx]. by rewrite lookup_empty in Hx.
  - by split.
Qed.

Lemma quiz_after_in_range clicks :
  questions <> [] ->
  QuizPlayground.in_range questions (QuizPlayground.after questions clicks).
Proof.
  intros Hne. unfold QuizPlayground.after.
  assert (Hinit : QuizPlayground.in_range questions QuizPlayground.initial).
  { split; simpl.
    - unfold QuizPlayground.size_of_quiz. destruct questions; [done | simpl; lia].
    - intros i [x Hx]. by rewrite lookup_empty in Hx. }
  revert Hinit. generalize QuizPlayground.initial.
  induction clicks as [| a clicks IH]; intros st Hst; simpl; [exact Hst |].
  apply IH. by apply quiz_dispatch_in_range.
Qed.

(** For a non-empty quiz and any sequence of clicks, the current index
    stays between 0 and the last question, so [questions[currentIndex]] is
    always a question.  In such a state Next does nothing on the last
    question and Prev nothing on the first; anywhere else they move the
    index by one and hide the explanation. *)
Theorem quiz_index_stays_in_range clicks :
  questions <> [] ->
  let st := QuizPlayground.after questions clicks in
  0 <= QuizPlayground.currentIndex st < size_of_quiz
  /\ is_Some (QuizPlayground.question questions st)
  /\ (QuizPlayground.currentIndex st = size_of_quiz - 1 ->
      QuizPlayground.handleNext questions st = st)
  /\ (QuizPlayground.currentIndex st = 0 -> QuizPlayground.handlePrev st = st)
  /\ (QuizPlayground.currentIndex st < size_of_quiz - 1 ->
      QuizPlayground.handleNext questions st
      = QuizPlayground.State (QuizPlayground.currentIndex st + 1)
          (QuizPlayground.answers st) (QuizPlayground.score st) false)
  /\ (0 < QuizPlayground.currentIndex st ->
      QuizPlayground.handlePrev st
      = QuizPlayground.State (QuizPlayground.currentIndex st - 1)
          (QuizPlayground.answers st) (QuizPlayground.score st) false).
Proof.
  intros Hne st. destruct (quiz_after_in_range clicks Hne) as [Hidx _].
  fold st in Hidx. split; [exact Hidx |]. split; [| split; [| split; [| split]]].
  - unfold QuizPlayground.question, at_index.
    destruct (Z.ltb_spec (QuizPlayground.currentIndex st) 0); [lia |].
    apply lookup_lt_is_Some. unfold QuizPlayground.size_of_quiz in Hidx. lia.
  - intros Hlast. unfold QuizPlayground.handleNext.
    destruct (Z.ltb_spec (QuizPlayground.currentIndex st) (size_of_quiz - 1));
      [lia | reflexivity].
  - intros Hfirst. unfold QuizPlayground.handlePrev.
    destruct (Z.gtb_spec (QuizPlayground.currentIndex st) 0); [lia | reflexivity].
  - intros Hmid. unfold QuizPlayground.handleNext.
    destruct (Z.ltb_spec (QuizPlayground.currentIndex st) (size_of_quiz - 1));
      [reflexivity | lia].
  - intros Hmid. unfold QuizPlayground.handlePrev.
    destruct (Z.gtb_spec (QuizPlayground.currentIndex st) 0); [reflexivity | lia].
Qed.

(** When the Submit button is enabled, that is when the number of keys of
    [answers] equals the number of questions, every question has an
    answer. *)
Theorem quiz_submit_enabled_means_all_answered clicks :
  questions <> [] ->
  let st := QuizPlayground.after questions clicks in
  QuizPlayground.submit_disabled questions st = false ->
  forall i, 0 <= i < size_of_quiz -> is_Some (QuizPlayground.answers st !! i).
Proof.
  intros Hne st Hen i Hi.
  destruct (quiz_after_in_range clicks Hne) as [_ Hans]. fold st in Hans.
  unfold QuizPlayground.submit_disabled in Hen.
  apply negb_false_iff, bool_decide_eq_true in Hen.
  set (all := list_to_set (seqZ 0 size_of_quiz) : gset Z).
  assert (Hsub : dom (QuizPlayground.answers st) ⊆ all).
  { intros k Hk. apply elem_of_dom in Hk. apply Hans in Hk.
    apply elem_of_list_to_set, elem_of_seqZ. lia. }
  assert (Hsize : size all = length questions).
  { unfold all. rewrite size_list_to_set by apply NoDup_seqZ.
    rewrite length_seqZ. unfold QuizPlayground.size_of_quiz. lia. }
  assert (Heq : dom (QuizPlayground.answers st) = all).
  { apply set_subseteq_size_eq; [exact Hsub |]. rewrite size_dom, Hsize. lia. }
  apply elem_of_dom. rewrite Heq. apply elem_of_list_to_set, elem_of_seqZ. lia.
Qed.

Lemma count_correct_bounds given qs :
  forall i total t,
    QuizPlayground.count_correct given i qs total = inr t ->
    total <= t <= total + Z.of_nat (length qs).
Proof.
  induction qs as [| q rest IH]; intros i total t E; simpl in E.
  - injection E as <-. simpl. lia.
  - destruct (get_prop q "answer_index") as [e | v]; [discriminate |].
    apply IH in E. simpl length.
    destruct (strict_equal_number _ _); lia.
Qed.

Lemma count_correct_all given qs :
  forall i total t,
    QuizPlayground.count_correct given i qs total = inr t ->
    (t = total + Z.of_nat (length qs)
     <-> forall k q, qs !! k = Some q ->
           exists v, get_prop q "answer_index" = inr v
                     /\ strict_equal_number (given !! (i + Z.of_nat k)) v = true).
Proof.
  induction qs as [| q rest IH]; intros i total t E; simpl in E.
  - injection E as <-. simpl. split; [| lia]. intros _ k q Hk. done.
  - destruct (get_prop q "answer_index") as [e | v] eqn:Hp; [discriminate |].
    pose proof (count_correct_bounds _ _ _ _ _ E) as Hb.
    specialize (IH _ _ _ E). simpl length.
    destruct (strict_equal_number (given !! i) v) eqn:Hs.
    + split.
      * intros Ht. assert (Ht' : t = total + 1 + Z.of_nat (length rest)) by lia.
        pose proof (proj1 IH Ht') as Hrest. intros [| k] q' Hk; simpl in Hk.
        -- injection Hk as <-. exists v. rewrite Z.add_0_r. by split.
        -- destruct (Hrest k q' Hk) as (v' & Hv' & Hs'). exists v'. split; [done |].
           by replace (i + Z.of_nat (S k)) with (i + 1 + Z.of_nat k) by lia.
      * intros Hall. assert (Ht' : t = total + 1 + Z.of_nat (length rest)); [| lia].
        apply (proj2 IH). intros k q' Hk. destruct (Hall (S k) q' Hk) as (v' & Hv' & Hs').
        exists v'. split; [done |].
        by replace (i + 1 + Z.of_nat k) with (i + Z.of_nat (S k)) by lia.
    + split; [lia |]. intros Hall. destruct (Hall 0%nat q eq_refl) as (v' & Hv' & Hs').
      rewrite Hp in Hv'. injection Hv' as <-. rewrite Z.add_0_r in Hs'. congruence.
Qed.

Lemma count_correct_some given qs :
  forall i total t,
    QuizPlayground.count_correct given i qs total = inr t ->
    (total < t
     <-> exists k q v, qs !! k = Some q /\ get_prop q "answer_index" = inr v
                       /\ strict_equal_number (given !! (i + Z.of_nat k)) v = true).
Proof.
  induction qs as [| q rest IH]; intros i total t E; simpl in E.
  - injection E as <-. split; [lia |]. intros (k & q & v & Hk & _). done.
  - destruct (get_prop q "answer_index") as [e | v] eqn:Hp; [discriminate |].
    pose proof (count_correct_bounds _ _ _ _ _ E) as Hb.
    specialize (IH _ _ _ E).
    destruct (strict_equal_number (given !! i) v) eqn:Hs.
    + split; [| lia]. intros _. exists 0%nat, q, v. rewrite Z.add_0_r. by split.
    + split.
      * intros Ht. destruct (proj1 IH Ht) as (k & q' & v' & Hk & Hv' & Hs').
        exists (S k), q', v'. split; [done |]. split; [done |].
        by replace (i + Z.of_nat (S k)) with (i + 1 + Z.of_nat k) by lia.
      * intros ([| k] & q' & v' & Hk & Hv' & Hs'); simpl in Hk.
        -- injection Hk as <-. rewrite Hp in Hv'. injection Hv' as <-.
           rewrite Z.add_0_r in Hs'. congruence.
        -- apply (proj2 IH). exists k, q', v'. split; [done |]. split; [done |].
           by replace (i + 1 + Z.of_nat k) with (i + Z.of_nat (S k)) by lia.
Qed.

(** A submit that completes sets the score to a number between 0 and the
    number of questions, leaves index and answers alone, and the score is
    the number of questions exactly when every answer equals its
    [answer_index]. *)
Theorem quiz_score_is_bounded st st' :
  QuizPlayground.handleSubmit questions st = inr st' ->
  exists total,
    QuizPlayground.score st' = Some total
    /\ 0 <= total <= size_of_quiz
    /\ QuizPlayground.currentIndex st' = QuizPlayground.currentIndex st
    /\ QuizPlayground.answers st' = QuizPlayground.answers st
    /\ (total = size_of_quiz
        <-> forall i, (i < length questions)%nat ->
              QuizPlayground.correct questions (QuizPlayground.answers st) i).
Proof.
  unfold QuizPlayground.handleSubmit.
  destruct (QuizPlayground.count_correct _ _ _ _) as [e | total] eqn:E;
    [discriminate |].
  intros [= <-]. exists total. simpl.
  pose proof (count_correct_bounds _ _ _ _ _ E) as Hb.
  split; [done |]. split; [unfold QuizPlayground.size_of_quiz; lia |].
  split; [done |]. split; [done |].
  pose proof (count_correct_all _ _ _ _ _ E) as Hall. simpl in Hall.
  unfold QuizPlayground.size_of_quiz. rewrite Hall. split.
  - intros H i Hi. destruct (lookup_lt_is_Some_2 questions i Hi) as [q Hq].
    destruct (H i q Hq) as (v & Hv & Hs). by exists q, v.
  - intros H k q Hq. destruct (H k) as (q' & v & Hq' & Hv & Hs).
    { by eapply lookup_lt_Some. }
    rewrite Hq in Hq'. injection Hq' as <-. by exists v.
Qed.

(** The score card replaces the question view only for a score that is
    not zero: after a submit of a non-empty quiz it is shown exactly when at
    least one answer is correct, and with no correct answer the question
    view stays. *)
Theorem quiz_score_card_needs_a_correct_answer st st' :
  questions <> [] ->
  QuizPlayground.handleSubmit questions st = inr st' ->
  (QuizPlayground.render questions st' = QuizPlayground.ScoreCard
   <-> exists i, QuizPlayground.correct questions (QuizPlayground.answers st) i)
  /\ (QuizPlayground.score st' = Some 0 ->
      QuizPlayground.render questions st' = QuizPlayground.QuestionView).
Proof.
  intros Hne. unfold QuizPlayground.handleSubmit.
  destruct (QuizPlayground.count_correct _ _ _ _) as [e | total] eqn:E;
    [discriminate |].
  intros [= <-].
  pose proof (count_correct_bounds _ _ _ _ _ E) as Hb.
  pose proof (count_correct_some _ _ _ _ _ E) as Hsome. simpl in Hsome.
  unfold QuizPlayground.render, QuizPlayground.no_score. simpl.
  rewrite bool_decide_eq_false_2 by (by destruct questions).
  split.
  - destruct (Z.eqb_spec total 0) as [-> | Hnz].
    + split; [discriminate |]. intros (i & q & v & Hq & Hv & Hs).
      assert (0 < 0); [| lia]. apply (proj2 Hsome). by exists i, q, v.
    + split; [| done]. intros _. assert (Hpos : 0 < total) by lia.
      destruct (proj1 Hsome Hpos) as (k & q & v & Hq & Hv & Hs).
      exists k, q, v. by split.
  - intros [= ->]. reflexivity.
Qed.

End QuizPlaygroundFacts.

Section FlashcardsFacts.

Context {A : Type}.
Variable flashcards : list A.

Lemma flashcards_dispatch_in_range i a :
  0 <= i < Z.of_nat (length flashcards) ->
  0 <= Flashcards.dispatch flashcards i a < Z.of_nat (length flashcards).
Proof.
  intros Hi. destruct a; simpl; unfold Flashcards.prev, Flashcards.next; lia.
Qed.

Lemma flashcards_foldl_in_range clicks :
  forall i,
    0 <= i < Z.of_nat (length flashcards) ->
    0 <= foldl (Flashcards.dispatch flashcards) i clicks < Z.of_nat (length flashcards).
Proof.
  induction clicks as [| a clicks IH]; intros i Hi; simpl; [exact Hi |].
  apply IH. by apply flashcards_dispatch_in_range.
Qed.

(** For a non-empty deck and any sequence of Prev and Next clicks the
    index stays between 0 and the last card, so the card shown always
    exists; Prev on the first card and Next on the last one change
    nothing. *)
Theorem flashcard_index_stays_in_range clicks :
  flashcards <> [] ->
  let i := Flashcards.after flashcards clicks in
  0 <= i < Z.of_nat (length flashcards)
  /\ (exists card, Flashcards.render flashcards i = Some (inr card))
  /\ Flashcards.prev 0 = 0
  /\ Flashcards.next flashcards (Z.of_nat (length flashcards) - 1)
     = Z.of_nat (length flashcards) - 1.
Proof.
  intros Hne i.
  assert (Hpos : 0 < Z.of_nat (length flashcards))
    by (destruct flashcards; [done | simpl; lia]).
  assert (Hi : 0 <= i < Z.of_nat (length flashcards)).
  { subst i. unfold Flashcards.after. apply flashcards_foldl_in_range. lia. }
  split; [exact Hi |]. split; [| split].
  - unfold Flashcards.render, at_index.
    rewrite bool_decide_eq_false_2 by (by destruct flashcards).
    destruct (Z.ltb_spec i 0); [lia |].
    destruct (lookup_lt_is_Some_2 flashcards (Z.to_nat i)) as [card Hc]; [lia |].
    exists card. by rewrite Hc.
  - unfold Flashcards.prev. lia.
  - unfold Flashcards.next. lia.
Qed.

End FlashcardsFacts.

Section LoginFacts.

Lemma strip_non_digits_digits value :
  Forall (fun c => is_true (Login.is_digit c))
         (String.list_ascii_of_string (Login.strip_non_digits value)).
Proof.
  induction value as [| c rest IH]; simpl; [constructor |].
  destruct (Login.is_digit c) eqn:Hc; [| exact IH].
  simpl. constructor; [exact Hc | exact IH].
Qed.

Lemma strip_non_digits_fixed s :
  Forall (fun c => is_true (Login.is_digit c)) (String.list_ascii_of_string s) ->
  Login.strip_non_digits s = s.
Proof.
  induction s as [| c rest IH]; simpl; [done |].
  intros H. inversion H as [| ? ? Hc Hrest]; subst.
  unfold is_true in Hc. rewrite Hc. by rewrite IH.
Qed.

Lemma strip_non_digits_length value :
  (String.length (Login.strip_non_digits value) <= String.length value)%nat.
Proof.
  induction value as [| c rest IH]; simpl; [lia |].
  destruct (Login.is_digit c); simpl; lia.
Qed.

(** Whatever is typed or pasted into the code field, the stored code
    holds decimal digits only, is no longer than the input, and typing it
    again changes nothing; so when the Verify button is enabled the code is
    exactly six digits. *)
Theorem otp_field_keeps_digits_only value st :
  let st' := Login.onChangeOtp value st in
  Forall (fun c => is_true (Login.is_digit c)) (String.list_ascii_of_string (Login.otp st'))
  /\ (String.length (Login.otp st') <= String.length value)%nat
  /\ Login.onChangeOtp (Login.otp st') st' = st'
  /\ (Login.verify_disabled st' = false -> String.length (Login.otp st') = 6%nat).
Proof.
  intros st'. simpl. split; [apply strip_non_digits_digits |].
  split; [apply strip_non_digits_length |]. split.
  - unfold Login.onChangeOtp, Login.setOtp. simpl.
    by rewrite (strip_non_digits_fixed _ (strip_non_digits_digits value)).
  - unfold Login.verify_disabled. simpl. intros H.
    apply orb_false_iff in H as [_ H].
    by apply negb_false_iff, bool_decide_eq_true in H.
Qed.

Lemma pad_two_digits_check :
  forallb (fun r => bool_decide (Login.padStart 2 "0" (pretty r)
                                 = pretty (r / 10) +:+ pretty (r mod 10)))
          (seqZ 0 60) = true.
Proof. vm_compute. reflexivity. Qed.

(** For a whole number of seconds from 0 up to, but not including, 2^53
    [formatTime] prints the whole minutes, a colon, and the remaining
    seconds always as two digits. *)
Theorem formatTime_prints_two_digit_seconds seconds :
  0 <= seconds < 2 ^ 53 ->
  Login.formatTime seconds
  = pretty (seconds / 60) +:+ ":" +:+ pretty (seconds mod 60 / 10)
    +:+ pretty (seconds mod 60 mod 10).
Proof.
  intros Hs. unfold Login.formatTime. cbv zeta.
  rewrite Z.rem_mod_nonneg by lia.
  assert (Hr : 0 <= seconds mod 60 < 60) by (apply Z.mod_pos_bound; lia).
  pose proof pad_two_digits_check as Hall.
  rewrite forallb_forall in Hall.
  assert (Hin : In (seconds mod 60) (seqZ 0 60))
    by (apply list_elem_of_In, elem_of_seqZ; lia).
  apply Hall, bool_decide_eq_true in Hin. by rewrite Hin.
Qed.

End LoginFacts.

Section LoginHandlerFacts.

Context {env : Env} {engine : Engine}.

Lemma or_text_nonempty s fallback : fallback <> "" -> or_text s fallback <> "".
Proof. intros Hf. unfold or_text. case_bool_decide; done. Qed.

(** When [registerUser] rejects, [handleRegister] stops there: no code is
    requested, the form stays on the e-mail step with loading off, and a
    non-empty error text is shown, the error's message or "Registration
    failed". *)
Theorem register_failure_requests_no_code st w e w1 :
  registerUser (Login.email st) (JStr "") (Login.fullName st) w = (Abrupt e, w1) ->
  exists st',
    Login.handleRegister st w = (Normal (Login.Outcome st' [] []), w1)
    /\ Login.step st' = Login.step st
    /\ Login.loading st' = false
    /\ Login.error st' = or_text (message e) "Registration failed"
    /\ Login.error st' <> "".
Proof.
  intros E. unfold Login.handleRegister, bind, try_catch. rewrite E. simpl.
  eexists. split; [reflexivity |]. simpl. repeat (split; [done |]).
  by apply or_text_nonempty.
Qed.

(** When [registerUser] and then [sendOTP] resolve, [handleRegister] has
    sent the two requests in that order, moves to the code step, starts the
    countdown at 300 seconds, clears the error and raises one alert. *)
Theorem register_success_requests_code st w j1 w1 j2 w2 :
  registerUser (Login.email st) (JStr "") (Login.fullName st) w = (Normal j1, w1) ->
  sendOTP JNull (Login.email st) w1 = (Normal j2, w2) ->
  exists st',
    Login.handleRegister st w
    = (Normal (Login.Outcome st'
                 ["Registration successful! Check your email (or console) for OTP."] []),
       w2)
    /\ Login.step st' = Login.otp_step
    /\ Login.timer st' = 300
    /\ Login.loading st' = false
    /\ Login.error st' = ""
    /\ Login.email st' = Login.email st.
Proof.
  intros E1 E2. unfold Login.handleRegister, bind, try_catch. rewrite E1, E2. simpl.
  eexists. split; [reflexivity |]. by simpl.
Qed.

(** While the countdown is above zero [handleResendOTP] does nothing at
    all, whatever the rest of the state: no request, no state change, no
    alert.  At zero or below it is [handleSendOTP].  A [handleSendOTP] whose
    request resolves moves to the code step and puts the countdown at 300,
    so a resend right after it is blocked. *)
Theorem resend_is_blocked_after_send :
  (forall st w,
     0 < Login.timer st ->
     Login.handleResendOTP st w = (Normal (Login.Outcome st [] []), w))
  /\ (forall st w,
        Login.timer st <= 0 ->
        Login.handleResendOTP st w = Login.handleSendOTP st w)
  /\ (forall st w j w1,
        sendOTP JNull (Login.email st) w = (Normal j, w1) ->
        exists out,
          Login.handleSendOTP st w = (Normal out, w1)
          /\ Login.step (Login.next_state out) = Login.otp_step
          /\ Login.timer (Login.next_state out) = 300
          /\ forall w2,
               Login.handleResendOTP (Login.next_state out) w2
               = (Normal (Login.Outcome (Login.next_state out) [] []), w2)).
Proof.
  split; [| split].
  - intros st w Ht. unfold Login.handleResendOTP.
    destruct (Z.gtb_spec (Login.timer st) 0); [reflexivity | lia].
  - intros st w Ht. unfold Login.handleResendOTP.
    destruct (Z.gtb_spec (Login.timer st) 0); [lia | reflexivity].
  - intros st w j w1 E. unfold Login.handleSendOTP, bind, try_catch. rewrite E. simpl.
    eexists. split; [reflexivity |]. simpl. split; [done |]. split; [done |].
    intros w2. reflexivity.
Qed.


End LoginHandlerFacts.

Section AppFacts.

Context {env : Env}.

Lemma checkAuth_no_token fuel st w :
  truthy_item (localStorage w !! "access_token") = false ->
  App.checkAuth fuel st w = (Normal (App.setAuthLoading false st), w).
Proof.
  intros Ht. unfold App.checkAuth. rewrite bind_getItem, Ht. reflexivity.
Qed.

Lemma checkAuth_with_token fuel st w :
  truthy_item (localStorage w !! "access_token") = true ->
  App.checkAuth fuel st w
  = bind (try_catch
            (let* profile := getUserProfile fuel in
             let* p := lift (get_prop profile "profile") in
             ret (App.setIsAuthenticated true (App.setUser p st)))
            (fun error =>
               emit (EvConsoleError "Auth check failed:" error);;
               ret (App.setIsAuthenticated false st)))
         (fun st' => ret (App.setAuthLoading false st')) w.
Proof.
  intros Ht. unfold App.checkAuth. rewrite bind_getItem, Ht. reflexivity.
Qed.

(** With a stored token and a profile request that resolves with a JSON
    value other than [null], [checkAuth] ends on the main page with [user]
    set to the [profile] field of the answer. *)
Theorem checkAuth_signs_in fuel st w profile w1 p :
  truthy_item (localStorage w !! "access_token") = true ->
  getUserProfile fuel w = (Normal profile, w1) ->
  get_prop profile "profile" = inr p ->
  exists st',
    App.checkAuth fuel st w = (Normal st', w1)
    /\ App.render st' = App.MainPage
    /\ App.user st' = p.
Proof.
  intros Ht E Hp. rewrite (checkAuth_with_token _ _ _ Ht).
  unfold bind, try_catch. rewrite E. unfold lift. rewrite Hp. simpl.
  eexists. split; [reflexivity |]. by split.
Qed.

(** With a stored token and a profile request that rejects, [checkAuth]
    does not throw: it logs the error with [console.error] and ends on the
    login page. *)
Theorem checkAuth_swallows_rejection fuel st w e w1 :
  truthy_item (localStorage w !! "access_token") = true ->
  getUserProfile fuel w = (Abrupt e, w1) ->
  exists st',
    App.checkAuth fuel st w
    = (Normal st',
       World (localStorage w1) (log w1 ++ [EvConsoleError "Auth check failed:" e]))
    /\ App.render st' = App.LoginPage.
Proof.
  intros Ht E. rewrite (checkAuth_with_token _ _ _ Ht).
  unfold bind, try_catch. rewrite E. simpl.
  eexists. split; [reflexivity |]. reflexivity.
Qed.

(** When the stored access token is rejected with 401 and the refresh
    fails, [checkAuth] ends on the login page with both tokens removed from
    storage. *)
Theorem checkAuth_expired_session_shows_login fuel st w r :
  truthy_item (localStorage w !! "access_token") = true ->
  first_response GetUserProfile w = FetchResponse r ->
  status r = 401 ->
  refresh_fails (after_fetch w (request_of GetUserProfile (localStorage w !! "access_token"))
                             (FetchResponse r)) ->
  exists st' w',
    App.checkAuth (S fuel) st w = (Normal st', w')
    /\ App.render st' = App.LoginPage
    /\ localStorage w' !! "access_token" = None
    /\ localStorage w' !! "refresh_token" = None
    /\ last (log w') = Some (EvConsoleError "Auth check failed:" session_expired).
Proof.
  intros Ht Hf Hs Hfail.
  assert (E : exists w2, getUserProfile (S fuel) w
                         = (Abrupt session_expired, signed_out w2)).
  { change (getUserProfile (S fuel) w) with (run GetUserProfile (S fuel) w).
    rewrite (run_unauthorized _ _ _ _ Hf Hs). cbv zeta.
    set (w1 := after_fetch _ _ _) in *.
    destruct (refresh_cases w1)
      as [[_ E] | [[_ E] | [Ht' (r' & data & access & Hr & Hok & _)]]].
    - rewrite E. eauto.
    - rewrite E. eauto.
    - exfalso. destruct Hfail as [Hnone | r0 Hr0 Hok0 | Hrej].
      + rewrite Hnone in Ht'. discriminate.
      + rewrite Hr in Hr0. injection Hr0 as ->. congruence.
      + congruence. }
  destruct E as [w2 E].
  rewrite (checkAuth_with_token _ _ _ Ht). unfold bind, try_catch. rewrite E. simpl.
  eexists _, _. split; [reflexivity |]. split; [reflexivity |]. simpl.
  split; [| split].
  - rewrite lookup_delete_ne by done. apply lookup_delete_eq.
  - apply lookup_delete_eq.
  - apply last_snoc.
Qed.

(** [handleLogout] removes both tokens and resets the session state; a
    [checkAuth] run afterwards sends no request and leaves the login page
    in place. *)
Theorem checkAuth_after_logout_sends_nothing fuel st w :
  exists st1 w1,
    App.handleLogout st w = (Normal st1, w1)
    /\ localStorage w1 !! "access_token" = None
    /\ localStorage w1 !! "refresh_token" = None
    /\ App.isAuthenticated st1 = false
    /\ App.user st1 = Some JNull
    /\ App.summaryData st1 = Some JNull
    /\ App.quiz st1 = JArr []
    /\ App.checkAuth fuel st1 w1 = (Normal (App.setAuthLoading false st1), w1)
    /\ App.render (App.setAuthLoading false st1) = App.LoginPage.
Proof.
  eexists _, _. split; [reflexivity |]. simpl.
  assert (Hat : delete "refresh_token" (delete "access_token" (localStorage w))
                !! "access_token" = None).
  { rewrite lookup_delete_ne by done. apply lookup_delete_eq. }
  split; [exact Hat |]. split; [apply lookup_delete_eq |].
  repeat (split; [done |]). split; [| done].
  apply checkAuth_no_token. simpl. by rewrite Hat.
Qed.

End AppFacts.

Section InputTabsFacts.

Context {env : Env} {engine : Engine}.



(** With nothing to summarize on the active tab (a text or URL that is
    empty or white space only, or no file chosen) [handleSummarize] raises
    one alert and does nothing else: no request is sent and neither the
    loading flag nor the summary changes. *)
Theorem summarize_needs_input fuel st app w :
  match InputTabs.activeTab st with
  | InputTabs.text_tab => InputTabs.blank (InputTabs.text st) = true
  | InputTabs.pdf_tab => InputTabs.file st = None
  | InputTabs.youtube_tab => InputTabs.blank (InputTabs.url st) = true
  end ->
  exists text, InputTabs.handleSummarize fuel st app w = (Normal (app, [text]), w).
Proof.
  unfold InputTabs.handleSummarize.
  destruct (InputTabs.activeTab st); intros ->; eauto.
Qed.




End InputTabsFacts.

(** ** The further properties at concrete inputs *)

Lemma protected_error_carries_detail_example :
  run (env := server_error) (SummarizeText "notes") 1 signed_in
  = (Abrupt (Error "Internal Server Error"),
     after_fetch signed_in
       (request_of (env := server_error) (SummarizeText "notes") (Some "A1"))
       (answered 500 (JObj [("detail", JStr "Internal Server Error")]))).
Proof.
  apply (protected_error_carries_detail (env := server_error)
           (SummarizeText "notes") 0 signed_in
           (Response 500 (Some (JObj [("detail", JStr "Internal Server Error")])))
           [("detail", JStr "Internal Server Error")] "Internal Server Error").
  - reflexivity.
  - reflexivity.
  - discriminate.
  - reflexivity.
  - reflexivity.
  - discriminate.
Defined.

Lemma protected_error_falls_back_example :
  run (env := bad_gateway) (SummarizeYouTube "https://youtu.be/x") 1 signed_in
  = (Abrupt (Error "HTTP 502: Failed to summarize YouTube"),
     after_fetch signed_in
       (request_of (env := bad_gateway) (SummarizeYouTube "https://youtu.be/x") (Some "A1"))
       (FetchResponse (Response 502 None))).
Proof.
  apply (protected_error_falls_back (env := bad_gateway)
           (SummarizeYouTube "https://youtu.be/x") 0 signed_in (Response 502 None)).
  - reflexivity.
  - reflexivity.
  - discriminate.
  - left. reflexivity.
Defined.

Lemma unguarded_error_body_example :
  perform (env := bad_gateway) (RegisterUser "a@b.com" (JStr "") "Ada") 0 signed_in
  = (Abrupt SyntaxError,
     after_fetch signed_in
       (first_request (env := bad_gateway) (RegisterUser "a@b.com" (JStr "") "Ada")
          (tokens "A1" "R1"))
       (FetchResponse (Response 502 None))).
Proof.
  apply (unguarded_error_body_is_a_syntax_error (env := bad_gateway)
           (RegisterUser "a@b.com" (JStr "") "Ada") 0 signed_in (Response 502 None)).
  - discriminate.
  - discriminate.
  - reflexivity.
  - reflexivity.
  - reflexivity.
Defined.

Lemma null_error_body_example :
  exists w',
    perform (env := null_error) (Protected GetUserQuizzes) 1 signed_in
    = (Abrupt TypeError, w')
    /\ localStorage w' = tokens "A1" "R1".
Proof.
  apply (null_error_body_is_a_type_error (env := null_error)
           (Protected GetUserQuizzes) 0 signed_in (Response 500 (Some JNull))).
  - reflexivity.
  - reflexivity.
  - discriminate.
  - reflexivity.
Defined.

Lemma protected_success_example :
  run (env := profile_served) GetUserProfile 1 signed_in
  = (Normal (JObj [("profile", profile)]),
     after_fetch signed_in
       (request_of (env := profile_served) GetUserProfile (Some "A1"))
       (answered 200 (JObj [("profile", profile)]))).
Proof.
  apply (protected_success_is_one_request (env := profile_served)
           GetUserProfile 0 signed_in (Response 200 (Some (JObj [("profile", profile)])))).
  - reflexivity.
  - reflexivity.
Defined.

Lemma token_stored_by_verifyOTP_example :
  exists req res rest,
    log (run (env := sign_in_then_profile) GetUserProfile 1
           (verifyOTP (env := sign_in_then_profile) "a@b.com" "123456" (World ∅ [])).2).2
    = (log (verifyOTP (env := sign_in_then_profile) "a@b.com" "123456" (World ∅ [])).2
       ++ EvFetch req res :: rest)%list
    /\ authorization req = Some "Bearer A1".
Proof.
  apply (token_stored_by_verifyOTP_is_sent (env := sign_in_then_profile)
           "a@b.com" "123456" (World ∅ [])
           (JObj [("access_token", JStr "A1"); ("refresh_token", JStr "R1");
                  ("user", profile)])
           _ "A1" GetUserProfile 0).
  - reflexivity.
  - reflexivity.
  - discriminate.
Defined.

Lemma call_after_logout_example :
  let w0 := (logout signed_in).2 in
  let req := request_of (env := rejected_once) GetUserProfile None in
  authorization req = None
  /\ run (env := rejected_once) GetUserProfile 1 w0
     = (Abrupt session_expired, signed_out (after_fetch w0 req unauthorized))
  /\ requests (log (run (env := rejected_once) GetUserProfile 1 w0).2) = [req].
Proof.
  apply (call_after_logout_is_anonymous (env := rejected_once) GetUserProfile 0 signed_in
           (Response 401 (Some (JObj [("detail", JStr "Token has expired")])))).
  - reflexivity.
  - reflexivity.
Defined.

Lemma refresh_without_access_token_example :
  exists w2,
    refreshAccessToken (env := refresh_without_token) signed_in = (Normal true, w2)
    /\ localStorage w2 !! "access_token" = Some "undefined"
    /\ authorization (request_of (env := refresh_without_token) GetUserProfile
                        (localStorage w2 !! "access_token"))
       = Some "Bearer undefined".
Proof.
  apply (refresh_without_access_token_stores_undefined (env := refresh_without_token)
           GetUserProfile signed_in
           (Response 200 (Some (JObj [("token_type", JStr "bearer")])))
           [("token_type", JStr "bearer")]).
  - reflexivity.
  - reflexivity.
  - reflexivity.
  - reflexivity.
  - reflexivity.
Defined.

Lemma verifyOTP_stores_undefined_example :
  exists w',
    verifyOTP (env := otp_answered_with_array) "a@b.com" "123456" (World ∅ [])
    = (Normal (JArr []), w')
    /\ localStorage w' !! "access_token" = Some "undefined"
    /\ localStorage w' !! "refresh_token" = Some "undefined".
Proof.
  apply (verifyOTP_stores_undefined_for_non_objects (env := otp_answered_with_array)
           "a@b.com" "123456" (World ∅ []) (Response 200 (Some (JArr []))) (JArr [])).
  - reflexivity.
  - reflexivity.
  - reflexivity.
  - discriminate.
  - discriminate.
Defined.

Lemma unprotected_one_request_example :
  requests (log (perform (env := rejected_once) (SendOTP JNull "a@b.com") 0 signed_in).2)
  = [first_request (env := rejected_once) (SendOTP JNull "a@b.com") (tokens "A1" "R1")].
Proof.
  apply (unprotected_operations_send_one_request (env := rejected_once)
           (SendOTP JNull "a@b.com") 0 signed_in).
  discriminate.
Defined.

Lemma quiz_index_example :
  let st := QuizPlayground.after sample_quiz
              [QuizPlayground.Next; QuizPlayground.Next; QuizPlayground.Next;
               QuizPlayground.Answer 0] in
  0 <= QuizPlayground.currentIndex st < 2
  /\ is_Some (QuizPlayground.question sample_quiz st)
  /\ QuizPlayground.handleNext sample_quiz st = st.
Proof.
  intros st.
  destruct (quiz_index_stays_in_range sample_quiz
              [QuizPlayground.Next; QuizPlayground.Next; QuizPlayground.Next;
               QuizPlayground.Answer 0])
    as (Hidx & Hq & Hlast & _).
  - discriminate.
  - split; [exact Hidx |]. split; [exact Hq |]. apply Hlast. reflexivity.
Defined.

Lemma quiz_submit_enabled_example :
  let st := QuizPlayground.after sample_quiz
              [QuizPlayground.Answer 1; QuizPlayground.Next; QuizPlayground.Answer 1] in
  QuizPlayground.submit_disabled sample_quiz st = false
  /\ is_Some (QuizPlayground.answers st !! 0)
  /\ is_Some (QuizPlayground.answers st !! 1).
Proof.
  intros st. split; [reflexivity |].
  split;
    apply (quiz_submit_enabled_means_all_answered sample_quiz
             [QuizPlayground.Answer 1; QuizPlayground.Next; QuizPlayground.Answer 1]);
    (discriminate || reflexivity
     || (unfold QuizPlayground.size_of_quiz; simpl; lia)).
Defined.

Lemma quiz_score_example :
  exists total,
    QuizPlayground.score
      (QuizPlayground.after sample_quiz
         [QuizPlayground.Answer 1; QuizPlayground.Next; QuizPlayground.Answer 1;
          QuizPlayground.Submit])
    = Some total
    /\ 0 <= total <= 2.
Proof.
  destruct (quiz_score_is_bounded sample_quiz
              (QuizPlayground.after sample_quiz
                 [QuizPlayground.Answer 1; QuizPlayground.Next; QuizPlayground.Answer 1])
              (QuizPlayground.after sample_quiz
                 [QuizPlayground.Answer 1; QuizPlayground.Next; QuizPlayground.Answer 1;
                  QuizPlayground.Submit]))
    as (total & Hscore & Hbound & _).
  - reflexivity.
  - exists total. split; [exact Hscore | exact Hbound].
Defined.

Lemma quiz_zero_score_example :
  let st := QuizPlayground.after sample_quiz
              [QuizPlayground.Answer 0; QuizPlayground.Next; QuizPlayground.Answer 1] in
  let st' := QuizPlayground.after sample_quiz
               [QuizPlayground.Answer 0; QuizPlayground.Next; QuizPlayground.Answer 1;
                QuizPlayground.Submit] in
  QuizPlayground.score st' = Some 0
  /\ QuizPlayground.render sample_quiz st' = QuizPlayground.QuestionView.
Proof.
  intros st st'. split; [reflexivity |].
  apply (proj2 (quiz_score_card_needs_a_correct_answer sample_quiz st st'
                  ltac:(discriminate) eq_refl)).
  reflexivity.
Defined.

Lemma flashcard_index_example :
  let i := Flashcards.after ["a"; "b"; "c"]
             [Flashcards.Next; Flashcards.Next; Flashcards.Next; Flashcards.Next] in
  0 <= i < 3
  /\ (exists card, Flashcards.render ["a"; "b"; "c"] i = Some (inr card))
  /\ Flashcards.prev 0 = 0
  /\ Flashcards.next ["a"; "b"; "c"] (3 - 1) = 3 - 1.
Proof.
  apply (flashcard_index_stays_in_range ["a"; "b"; "c"]
           [Flashcards.Next; Flashcards.Next; Flashcards.Next; Flashcards.Next]).
  discriminate.
Defined.

Lemma otp_field_example :
  String.length (Login.otp (Login.onChangeOtp "12 34-56" Login.initial)) = 6%nat.
Proof.
  apply (otp_field_keeps_digits_only "12 34-56" Login.initial).
  reflexivity.
Defined.

Lemma formatTime_example :
  0 <= 300 < 2 ^ 53 /\ Login.formatTime 300 = "5:00".
Proof.
  split; [lia |].
  rewrite (formatTime_prints_two_digit_seconds 300); [reflexivity | lia].
Defined.

Lemma register_failure_example :
  exists st',
    Login.handleRegister (env := registration_refused) (engine := example_engine)
      registering (World ∅ [])
    = (Normal (Login.Outcome st' [] []),
       (registerUser (env := registration_refused) "a@b.com" (JStr "") "Ada"
          (World ∅ [])).2)
    /\ Login.step st' = Login.email_step
    /\ Login.loading st' = false
    /\ Login.error st' = "Email already registered".
Proof.
  destruct (register_failure_requests_no_code (env := registration_refused)
              (engine := example_engine) registering (World ∅ [])
              (Error "Email already registered")
              (registerUser (env := registration_refused) "a@b.com" (JStr "") "Ada"
                 (World ∅ [])).2)
    as (st' & E & Hstep & Hload & Herr & _).
  - reflexivity.
  - exists st'. split; [exact E |]. split; [exact Hstep |]. split; [exact Hload |].
    exact Herr.
Defined.

Lemma register_success_example :
  exists st' w2,
    Login.handleRegister (env := registration_accepted) (engine := example_engine)
      registering (World ∅ [])
    = (Normal (Login.Outcome st'
                 ["Registration successful! Check your email (or console) for OTP."] []),
       w2)
    /\ Login.step st' = Login.otp_step
    /\ Login.timer st' = 300.
Proof.
  destruct (register_success_requests_code (env := registration_accepted)
              (engine := example_engine) registering (World ∅ [])
              (JObj [("email", JStr "a@b.com")])
              (registerUser (env := registration_accepted) "a@b.com" (JStr "") "Ada"
                 (World ∅ [])).2
              (JObj [("message", JStr "OTP sent")])
              (sendOTP (env := registration_accepted) JNull "a@b.com"
                 (registerUser (env := registration_accepted) "a@b.com" (JStr "") "Ada"
                    (World ∅ [])).2).2)
    as (st' & E & Hstep & Htimer & _).
  - reflexivity.
  - reflexivity.
  - exists st'. eexists. split; [exact E |]. split; [exact Hstep | exact Htimer].
Defined.

Lemma resend_blocked_example :
  let counting := Login.State Login.login Login.otp_step "a@b.com" "" "12" false "" 17 in
  0 < Login.timer counting
  /\ Login.handleResendOTP (env := registration_accepted) (engine := example_engine)
       counting signed_in
     = (Normal (Login.Outcome counting [] []), signed_in).
Proof.
  intros counting. split; [reflexivity |].
  apply (proj1 (resend_is_blocked_after_send (env := registration_accepted)
                  (engine := example_engine)) counting signed_in).
  reflexivity.
Defined.

Lemma checkAuth_signs_in_example :
  exists st',
    App.checkAuth (env := profile_served) 1 App.initial signed_in
    = (Normal st', (getUserProfile (env := profile_served) 1 signed_in).2)
    /\ App.render st' = App.MainPage
    /\ App.user st' = Some profile.
Proof.
  apply (checkAuth_signs_in (env := profile_served) 1 App.initial signed_in
           (JObj [("profile", profile)])).
  - reflexivity.
  - reflexivity.
  - reflexivity.
Defined.

Lemma checkAuth_swallows_rejection_example :
  exists st',
    App.checkAuth (env := server_error) 1 App.initial signed_in
    = (Normal st',
       World (tokens "A1" "R1")
             (log (getUserProfile (env := server_error) 1 signed_in).2
              ++ [EvConsoleError "Auth check failed:" (Error "Internal Server Error")]))
    /\ App.render st' = App.LoginPage.
Proof.
  apply (checkAuth_swallows_rejection (env := server_error) 1 App.initial signed_in
           (Error "Internal Server Error")
           (getUserProfile (env := server_error) 1 signed_in).2).
  - reflexivity.
  - reflexivity.
Defined.

Lemma checkAuth_expired_session_example :
  exists st' w',
    App.checkAuth (env := refresh_refused) 1 App.initial signed_in = (Normal st', w')
    /\ App.render st' = App.LoginPage
    /\ localStorage w' !! "access_token" = None
    /\ localStorage w' !! "refresh_token" = None
    /\ last (log w') = Some (EvConsoleError "Auth check failed:" session_expired).
Proof.
  apply (checkAuth_expired_session_shows_login (env := refresh_refused)
           0 App.initial signed_in
           (Response 401 (Some (JObj [("detail", JStr "Token has expired")])))).
  - reflexivity.
  - reflexivity.
  - reflexivity.
  - apply (refresh_non_2xx (env := refresh_refused) _
             (Response 400 (Some (JObj [("detail", JStr "Invalid refresh token")])))).
    + reflexivity.
    + reflexivity.
Defined.

Lemma summarize_needs_input_example :
  exists text,
    InputTabs.handleSummarize (env := profile_served) (engine := example_engine) 1
      (InputTabs.State InputTabs.text_tab "  	 " None "") App.initial signed_in
    = (Normal (App.initial, [text]), signed_in).
Proof.
  apply (summarize_needs_input (env := profile_served) (engine := example_engine) 1
           (InputTabs.State InputTabs.text_tab "  	 " None "") App.initial signed_in).
  reflexivity.
Defined.
